(** * Chrome Agent pipeline: classification and dispatch

    A shallow embedding of [src/chrome_agent_pipeline.py] (class [Pipeline])
    and the properties of its classification-and-dispatch core.

    - Python [str] values are sequences of Unicode code points: [list Z].
    - [str.lower] follows CPython's algorithm ([do_lower] with the final
      sigma rule); the Unicode character database it reads is a parameter
      ([unicode_db]).
    - [re.search] is a backtracking matcher over the fragment of regular
      expressions the two patterns of the source use.
    - [requests.post] is an oracle ([backend]) consulted through a monad
      that records every request issued and propagates Python exceptions. *)

From Stdlib Require Import String Ascii DecimalString.
From Stdlib Require Import ZArith List Bool Lia.
Import ListNotations.

Set Implicit Arguments.
Set Warnings "-register-all".


(** ** Python strings *)

Definition pystr := list Z.

Module Utf8.

(** Source literals are UTF-8 text; [decode] gives their code points. *)
Fixpoint decode (bs : list Z) : pystr :=
  match bs with
  | [] => []
  | b0 :: r0 =>
    if (b0 <? 128)%Z then b0 :: decode r0
    else if (b0 <? 224)%Z then
      match r0 with
      | b1 :: r1 => ((b0 - 192) * 64 + (b1 - 128))%Z :: decode r1
      | _ => []
      end
    else if (b0 <? 240)%Z then
      match r0 with
      | b1 :: b2 :: r2 =>
        ((b0 - 224) * 4096 + (b1 - 128) * 64 + (b2 - 128))%Z :: decode r2
      | _ => []
      end
    else
      match r0 with
      | b1 :: b2 :: b3 :: r3 =>
        ((b0 - 240) * 262144 + (b1 - 128) * 4096
         + (b2 - 128) * 64 + (b3 - 128))%Z :: decode r3
      | _ => []
      end
  end.

Definition bytes_of (s : string) : list Z :=
  map (fun a => Z.of_N (N_of_ascii a)) (list_ascii_of_string s).

End Utf8.

(** [u "..."] is the Python literal with that text. *)
Definition u (s : string) : pystr := Utf8.decode (Utf8.bytes_of s).

Arguments u s%_string.

Definition str_eqb (a b : pystr) : bool :=
  if list_eq_dec Z.eq_dec a b then true else false.

(** [s.startswith(p)] *)
Fixpoint startswith (p s : pystr) : bool :=
  match p, s with
  | [], _ => true
  | _ :: _, [] => false
  | a :: p', b :: s' => (a =? b)%Z && startswith p' s'
  end.

(** [needle in hay] for strings: substring test. *)
Fixpoint str_in (needle hay : pystr) : bool :=
  startswith needle hay ||
  match hay with
  | [] => false
  | _ :: hay' => str_in needle hay'
  end.

(** [any(k in s for k in ks)] *)
Definition any_in (ks : list pystr) (s : pystr) : bool :=
  existsb (fun k => str_in k s) ks.

(** [s[b:e]] for [0 <= b <= e]. *)
Definition slice (s : pystr) (b e : nat) : pystr := firstn (e - b) (skipn b s).

(** [str(n)] for an [int]. *)
Definition str_of_int (n : Z) : pystr :=
  u (NilEmpty.string_of_int (Z.to_int n)).

(** ** [str.lower]

    CPython lowers a string code point by code point through
    [_PyUnicode_ToLowerFull], except for U+03A3 (capital sigma), which
    becomes U+03C2 in final position and U+03C3 elsewhere
    ([handle_capital_sigma]).  The three character properties come from
    the Unicode database of the interpreter. *)

Record unicode_db := {
  to_lower_full : Z -> pystr;
  is_cased : Z -> bool;
  is_case_ignorable : Z -> bool
}.

Section Lower.

Variable db : unicode_db.

Definition first_not_ignorable (s : pystr) : option Z :=
  find (fun c => negb (is_case_ignorable db c)) s.

(** [before] is the text to the left of the sigma, nearest first. *)
Definition handle_capital_sigma (before after : pystr) : Z :=
  let final_sigma :=
    match first_not_ignorable before with
    | Some c =>
      is_cased db c &&
      match first_not_ignorable after with
      | Some c' => negb (is_cased db c')
      | None => true
      end
    | None => false
    end in
  if final_sigma then 962%Z else 963%Z.

Definition lower_char (before : pystr) (c : Z) (after : pystr) : pystr :=
  if (c =? 931)%Z then [handle_capital_sigma before after]
  else to_lower_full db c.

Fixpoint do_lower (before rest : pystr) : pystr :=
  match rest with
  | [] => []
  | c :: after => lower_char before c after ++ do_lower (c :: before) after
  end.

Definition lower (s : pystr) : pystr := do_lower [] s.

End Lower.

(** The part of the database the literals of the source live in: ASCII and
    the CJK unified ideographs U+4E00..U+9FFF. *)
Definition ascii_or_cjk (c : Z) : bool :=
  ((0 <=? c) && (c <? 128) || (19968 <=? c) && (c <=? 40959))%Z.

Definition basic_lower (c : Z) : Z :=
  if ((65 <=? c) && (c <=? 90))%Z then (c + 32)%Z else c.

(** What every Unicode database says about those code points. *)
Definition db_basic (db : unicode_db) : Prop :=
  forall c, ascii_or_cjk c = true -> to_lower_full db c = [basic_lower c].

(** A database that knows the ASCII letters only; [str.lower] computed with
    it agrees with Python's on text whose other characters are caseless. *)
Definition ascii_db : unicode_db := {|
  to_lower_full := fun c => [basic_lower c];
  is_cased := fun c => ((65 <=? c) && (c <=? 90) || (97 <=? c) && (c <=? 122))%Z;
  is_case_ignorable := fun c =>
    ((c =? 39) || (c =? 46) || (c =? 58) || (c =? 94) || (c =? 96))%Z
|}.

(** ** Regular expressions

    The fragment used by the URL pattern and the selector pattern of the
    source: literals, character classes, greedy [?], greedy [+] over a class,
    concatenation and one capturing group. *)

Inductive regex :=
| Lit (c : Z)
| Cls (p : Z -> bool)
| Opt (r : regex)
| Plus (p : Z -> bool)
| Cat (r1 r2 : regex)
| Grp (r : regex).

(** Literal text followed by [r]. *)
Definition lits (p : pystr) (r : regex) : regex :=
  fold_right (fun c acc => Cat (Lit c) acc) r p.

Definition caps := option (nat * nat).

Section Matcher.

Variable R : Type.

(** Greedy [+]: take one more character while possible, give back one at
    a time when the rest of the pattern fails. *)
Fixpoint plus_loop (p : Z -> bool) (n : nat) (s : pystr)
         (k : nat -> pystr -> option R) : option R :=
  match s with
  | [] => None
  | c :: s' =>
    if p c then
      match plus_loop p (S n) s' k with
      | Some r => Some r
      | None => k (S n) s'
      end
    else None
  end.

(** [m r n s g k]: match [r] at position [n], where [s] is the text from
    [n] on and [g] the span of group 1 so far; [k] matches what follows. *)
Fixpoint m (r : regex) (n : nat) (s : pystr) (g : caps)
         (k : nat -> pystr -> caps -> option R) : option R :=
  match r with
  | Lit c =>
    match s with
    | x :: s' => if (x =? c)%Z then k (S n) s' g else None
    | [] => None
    end
  | Cls p =>
    match s with
    | x :: s' => if p x then k (S n) s' g else None
    | [] => None
    end
  | Opt r1 =>
    match m r1 n s g k with
    | Some x => Some x
    | None => k n s g
    end
  | Plus p => plus_loop p n s (fun n' s' => k n' s' g)
  | Cat r1 r2 => m r1 n s g (fun n' s' g' => m r2 n' s' g' k)
  | Grp r1 => m r1 n s g (fun n' s' _ => k n' s' (Some (n, n')))
  end.

End Matcher.

(** A match object: the subject, the span of the whole match and of
    group 1. *)
Record re_match := {
  subject : pystr;
  span0 : nat * nat;
  span1 : caps
}.

Definition match_at (r : regex) (n : nat) (s : pystr) : option (nat * caps) :=
  m r n s None (fun n' _ g => Some (n', g)).

(** Leftmost match: try every start position in turn. *)
Fixpoint search_from (r : regex) (whole : pystr) (n : nat) (s : pystr)
  : option re_match :=
  match match_at r n s with
  | Some (e, g) => Some {| subject := whole; span0 := (n, e); span1 := g |}
  | None =>
    match s with
    | [] => None
    | _ :: s' => search_from r whole (S n) s'
    end
  end.

(** [re.search(r, s)] *)
Definition re_search (r : regex) (s : pystr) : option re_match :=
  search_from r s 0 s.

(** [m.group(0)] and [m.group(1)] *)
Definition group0 (mt : re_match) : pystr :=
  slice (subject mt) (fst (span0 mt)) (snd (span0 mt)).

Definition group1 (mt : re_match) : option pystr :=
  match span1 mt with
  | Some (b, e) => Some (slice (subject mt) b e)
  | None => None
  end.

(** [\s] on [str] patterns: [Py_UNICODE_ISSPACE]. *)
Definition is_space (c : Z) : bool :=
  ((9 <=? c) && (c <=? 13) || (28 <=? c) && (c <=? 32)
   || (c =? 133) || (c =? 160) || (c =? 5760)
   || (8192 <=? c) && (c <=? 8202)
   || (c =? 8232) || (c =? 8233) || (c =? 8239) || (c =? 8287)
   || (c =? 12288))%Z.

Definition not_space (c : Z) : bool := negb (is_space c).

(** The double quote is code point 34, the single quote 39. *)
Definition is_quote (c : Z) : bool := ((c =? 34) || (c =? 39))%Z.

Definition not_quote (c : Z) : bool := negb (is_quote c).

(** The URL pattern: http, an optional s, ://, then one or more
    characters of the class [^\s]. *)
Definition url_pattern : regex :=
  lits (u "http") (Cat (Opt (Lit 115)) (lits (u "://") (Plus not_space))).

(** The selector pattern: a character of the class of the two quotes, a
    group of one or more characters outside that class, and again a
    character of the class of the two quotes. *)
Definition selector_pattern : regex :=
  Cat (Cls is_quote) (Cat (Grp (Plus not_quote)) (Cls is_quote)).

(** ** Python values and exceptions *)

(** What [response.json()] can return.  A float is kept as what the code
    can observe of it: whether it is non-zero and its [str()]. *)
Inductive pyval :=
| PNone
| PBool (b : bool)
| PInt (n : Z)
| PFloat (nonzero : bool) (repr : pystr)
| PStr (s : pystr)
| PList (l : list pyval)
| PDict (d : list (pystr * pyval)).

(** An instance of [Exception], as the handlers of the source see it: the
    two [isinstance] tests of the [except] clauses and [str(e)].  In
    [requests], [ConnectTimeout] derives from both [ConnectionError] and
    [Timeout]. *)
Record pyexc := {
  is_ConnectionError : bool;
  is_Timeout : bool;
  exc_str : pystr
}.

Definition other_exception (detail : pystr) : pyexc :=
  {| is_ConnectionError := false; is_Timeout := false; exc_str := detail |}.

Inductive res (A : Type) :=
| Ok (a : A)
| Raise (e : pyexc).

Arguments Ok {A} a.
Arguments Raise {A} e.

Definition type_name (v : pyval) : pystr :=
  match v with
  | PNone => u "NoneType"
  | PBool _ => u "bool"
  | PInt _ => u "int"
  | PFloat _ _ => u "float"
  | PStr _ => u "str"
  | PList _ => u "list"
  | PDict _ => u "dict"
  end.

Definition AttributeError (v : pyval) (attr : pystr) : pyexc :=
  other_exception
    ([39%Z] ++ type_name v ++ u "' object has no attribute '" ++ attr ++ [39%Z]).

Definition TypeError_len (v : pyval) : pyexc :=
  other_exception (u "object of type '" ++ type_name v ++ u "' has no len()").

Definition TypeError_subscript (v : pyval) : pyexc :=
  other_exception ([39%Z] ++ type_name v ++ u "' object is not subscriptable").

Definition IndexError (what : pystr) : pyexc :=
  other_exception (what ++ u " index out of range").

(** [bool(v)] *)
Definition truthy (v : pyval) : bool :=
  match v with
  | PNone => false
  | PBool b => b
  | PInt n => negb (n =? 0)%Z
  | PFloat nz _ => nz
  | PStr s => negb (Nat.eqb (length s) 0)
  | PList l => negb (Nat.eqb (length l) 0)
  | PDict d => negb (Nat.eqb (length d) 0)
  end.

(** Truth value of an [Optional[str]]: [None] and the empty string are
    false. *)
Definition truthy_opt (o : option pystr) : bool :=
  match o with
  | Some (_ :: _) => true
  | _ => false
  end.

(** [f"{o}"] for an [Optional[str]] *)
Definition format_opt (o : option pystr) : pystr :=
  match o with
  | Some s => s
  | None => u "None"
  end.

Fixpoint dict_lookup (d : list (pystr * pyval)) (k : pystr) : option pyval :=
  match d with
  | [] => None
  | (k', v) :: d' => if str_eqb k' k then Some v else dict_lookup d' k
  end.

Section Runtime.

(** [repr(v)], used where the interpreter prints a key or a container.
    The texts of the built-in errors are those of CPython 3.11. *)
Variable py_repr : pyval -> pystr.

(** [v.get(key, default)] *)
Definition py_get (v : pyval) (key : pystr) (default : pyval) : res pyval :=
  match v with
  | PDict d =>
    match dict_lookup d key with
    | Some x => Ok x
    | None => Ok default
    end
  | _ => Raise (AttributeError v (u "get"))
  end.

(** [v[key]] with a string key *)
Definition py_getitem_str (v : pyval) (key : pystr) : res pyval :=
  match v with
  | PDict d =>
    match dict_lookup d key with
    | Some x => Ok x
    | None => Raise (other_exception (py_repr (PStr key)))
    end
  | PStr _ =>
  Raise (other_exception (u "string indices must be integers, not 'str'"))
  | PList _ =>
    Raise (other_exception (u "list indices must be integers or slices, not str"))
  | _ => Raise (TypeError_subscript v)
  end.

(** [v[0]]; the keys of a decoded JSON object are strings, so [0] is
    never one of them. *)
Definition py_getitem_0 (v : pyval) : res pyval :=
  match v with
  | PList (x :: _) => Ok x
  | PList [] => Raise (IndexError (u "list"))
  | PStr (c :: _) => Ok (PStr [c])
  | PStr [] => Raise (IndexError (u "string"))
  | PDict _ => Raise (other_exception (u "0"))
  | _ => Raise (TypeError_subscript v)
  end.

(** [len(v)] *)
Definition py_len (v : pyval) : res Z :=
  match v with
  | PStr s => Ok (Z.of_nat (length s))
  | PList l => Ok (Z.of_nat (length l))
  | PDict d => Ok (Z.of_nat (length d))
  | _ => Raise (TypeError_len v)
  end.

(** [f"{v}"] *)
Definition py_format (v : pyval) : pystr :=
  match v with
  | PStr s => s
  | PNone => u "None"
  | PBool true => u "True"
  | PBool false => u "False"
  | PInt n => str_of_int n
  | PFloat _ r => r
  | _ => py_repr v
  end.

End Runtime.

(** ** The outside world: [requests.post] *)

Record http_request := {
  req_url : pystr;
  req_json : pyval;
  req_timeout : Z
}.

(** A response object: [status_code], [text] and what [json()] does. *)
Record response := {
  status_code : Z;
  text : pystr;
  json : res pyval
}.

Inductive outcome :=
| Responded (r : response)
| Failed (e : pyexc).

(** Computations that may call the backend and may raise: the requests
    issued so far are threaded through. *)
Definition M (A : Type) : Type := list http_request -> res A * list http_request.

Definition ret {A} (a : A) : M A := fun log => (Ok a, log).

Definition raise {A} (e : pyexc) : M A := fun log => (Raise e, log).

Definition bind {A B} (c : M A) (k : A -> M B) : M B :=
  fun log =>
    match c log with
    | (Ok a, log') => k a log'
    | (Raise e, log') => (Raise e, log')
    end.

Definition lift {A} (r : res A) : M A :=
  match r with
  | Ok a => ret a
  | Raise e => raise e
  end.

(** [try: c except Exception as e: h(e)] *)
Definition try_except {A} (c : M A) (h : pyexc -> M A) : M A :=
  fun log =>
    match c log with
    | (Ok a, log') => (Ok a, log')
    | (Raise e, log') => h e log'
    end.

Declare Scope py_scope.
Delimit Scope py_scope with py.
Notation "x <- c ;; k" := (bind c (fun x => k))
  (at level 61, c at next level, right associativity) : py_scope.

(** ** The pipeline *)

(** [Pipeline.Valves] *)
Record Valves := {
  chrome_agent_url : pystr;
  enable_auto_detection : bool;
  timeout : Z
}.

Definition default_valves : Valves := {|
  chrome_agent_url := u "http://localhost:3000";
  enable_auto_detection := true;
  timeout := 30
|}.

(** [browser_keywords] of [pipe] *)
Definition browser_keywords : list pystr := [
  u "打开网页"; u "打开网站"; u "访问"; u "浏览"; u "网页"; u "网站";
  u "提取数据"; u "抓取"; u "爬取"; u "获取内容"; u "截图";
  u "点击"; u "输入"; u "搜索"; u "填写表单"; u "下载";
  u "open website"; u "visit"; u "browse"; u "extract"; u "scrape";
  u "click"; u "input"; u "search"; u "screenshot"
].

(** The keywords that select the extraction branch of
    [_execute_browser_task]. *)
Definition extract_keywords : list pystr :=
  [u "提取"; u "抓取"; u "获取"; u "extract"; u "scrape"].

Definition endpoint : pystr := u "/api/v1/chat/completions".

Definition nl : pystr := [10%Z].

Section Pipeline.

Variable db : unicode_db.
Variable py_repr : pyval -> pystr.

(** The backend answers a request knowing the requests issued before. *)
Variable backend : list http_request -> http_request -> outcome.

Variable valves : Valves.

Local Open Scope py_scope.

(** [requests.post(url, json=payload, timeout=t)] *)
Definition requests_post (url : pystr) (payload : pyval) (t : Z)
  : M response :=
  fun log =>
    let rq := {| req_url := url; req_json := payload; req_timeout := t |} in
    (match backend log rq with
     | Responded r => Ok r
     | Failed e => Raise e
     end, log ++ [rq]).

Definition chat_payload (content : pystr) : pyval :=
  PDict [
    (u "model", PStr (u "chrome-agent-v1"));
    (u "messages",
     PList [PDict [(u "role", PStr (u "user")); (u "content", PStr content)]]);
    (u "stream", PBool false)
  ].

(** The response handling shared, up to its three texts, by
    [_execute_general_task] and [_extract_data]. *)
Definition handle_response (default_content done failed : pystr)
           (r : response) : M pystr :=
  if (status_code r =? 200)%Z then
    result <- lift (json r) ;;
    choices <- lift (py_get result (u "choices") PNone) ;;
    nonempty <-
      (if truthy choices then
         c <- lift (py_getitem_str py_repr result (u "choices")) ;;
         n <- lift (py_len c) ;;
         ret (0 <? n)%Z
       else ret false) ;;
    if nonempty then
      c <- lift (py_getitem_str py_repr result (u "choices")) ;;
      first <- lift (py_getitem_0 c) ;;
      message <- lift (py_get first (u "message") (PDict [])) ;;
      content <- lift (py_get message (u "content") (PStr default_content)) ;;
      ret (done ++ nl ++ nl ++ py_format py_repr content)
    else
      ret (failed ++ nl ++ nl ++ u "响应格式异常")
  else
    ret (u "❌ 服务器错误 (" ++ str_of_int (status_code r) ++ u "): " ++ text r).

(** [_execute_general_task] *)
Definition _execute_general_task (task : pystr) (url : option pystr)
  : M pystr :=
  let full_task :=
    if truthy_opt url then u "访问 " ++ format_opt url ++ u " 然后 " ++ task
    else task in
  let payload := chat_payload full_task in
  r <- requests_post (chrome_agent_url valves ++ endpoint) payload
                     (timeout valves) ;;
  handle_response (u "任务已完成") (u "✅ 任务执行完成") (u "❌ 任务执行失败") r.

(** The selector lookup at the head of [_extract_data]. *)
Definition find_selector (task : pystr) : option pystr :=
  if str_in (u "选择器") task || str_in (u "selector") (lower db task) then
    match re_search selector_pattern task with
    | Some selector_match => group1 selector_match
    | None => None
    end
  else None.

(** [_extract_data] *)
Definition _extract_data (task : pystr) (url : option pystr) : M pystr :=
  let selector := find_selector task in
  let extract_task :=
    if truthy_opt url then
      let extract_task := u "访问 " ++ format_opt url ++ u " 然后 " ++ task in
      if truthy_opt selector then
        extract_task ++ u "，使用选择器: " ++ format_opt selector
      else extract_task
    else task in
  let payload := chat_payload extract_task in
  r <- requests_post (chrome_agent_url valves ++ endpoint) payload
                     (timeout valves) ;;
  handle_response (u "数据提取完成") (u "✅ 数据提取完成") (u "❌ 数据提取失败") r.

(** The URL of a task: [group(0)] of the first match, or [None]. *)
Definition find_url (task : pystr) : option pystr :=
  match re_search url_pattern task with
  | Some url_match => Some (group0 url_match)
  | None => None
  end.

Definition is_extract_task (task : pystr) : bool :=
  any_in extract_keywords (lower db task).

(** [_execute_browser_task] *)
Definition _execute_browser_task (task : pystr) : M pystr :=
  try_except
    (let url := find_url task in
     if is_extract_task task then _extract_data task url
     else _execute_general_task task url)
    (fun e =>
       if is_ConnectionError e then
         ret (u "❌ 无法连接到 Chrome Agent 服务器，请确保服务正在运行")
       else if is_Timeout e then
         ret (u "⏱️ 请求超时，任务可能需要更长时间执行")
       else
         ret (u "❌ 执行失败: " ++ exc_str e)).

Definition has_url (user_message : pystr) : bool :=
  match re_search url_pattern user_message with
  | Some _ => true
  | None => false
  end.

Definition has_keyword (user_message : pystr) : bool :=
  any_in browser_keywords (lower db user_message).

Definition is_browser_task (user_message : pystr) : bool :=
  enable_auto_detection valves &&
  (has_keyword user_message || has_url user_message).

(** [pipe]; [model_id], [messages] and [body] are not read. *)
Definition pipe (user_message model_id : pystr) (messages : list pyval)
           (body : pyval) : M pystr :=
  if is_browser_task user_message then _execute_browser_task user_message
  else ret user_message.

End Pipeline.

(** The state of a [Pipeline] object, and [__init__]. *)
Record Pipeline := {
  name : pystr;
  valves : Valves
}.

Definition __init__ : Pipeline :=
  {| name := u "Chrome Agent"; valves := default_valves |}.

(** * Specification vocabulary

    The notions the properties are stated with: what it means to match a
    pattern, to be the first match, what a dispatch sends and answers. *)

Unset Implicit Arguments.

(** The longest prefix of [s] whose characters satisfy [p]. *)
Fixpoint take_while (p : Z -> bool) (s : pystr) : pystr :=
  match s with
  | c :: s' => if p c then c :: take_while p s' else []
  | [] => []
  end.

(** A span relative to position [n], made absolute. *)
Definition shift (n : nat) (g : caps) : caps :=
  match g with
  | Some (b, e) => Some (n + b, n + e)%nat
  | None => None
  end.

(** Length of the match of the URL pattern at the head of [s]. *)
Definition url_len (s : pystr) : option nat :=
  if startswith (u "https://") s then
    match take_while not_space (skipn 8 s) with
    | [] => None
    | body => Some (8 + length body)%nat
    end
  else if startswith (u "http://") s then
    match take_while not_space (skipn 7 s) with
    | [] => None
    | body => Some (7 + length body)%nat
    end
  else None.

(** A text matches the URL pattern when it is [http://] or [https://]
    followed by one or more characters that are not white space. *)
Definition is_scheme (p : pystr) : Prop := p = u "http://" \/ p = u "https://".

Definition matches_url (w : pystr) : Prop :=
  exists scheme body,
    is_scheme scheme /\ body <> [] /\
    Forall (fun c => is_space c = false) body /\ w = scheme ++ body.

(** [msg] contains a substring matching the URL pattern. *)
Definition contains_url (msg : pystr) : Prop :=
  exists pre w post, msg = pre ++ w ++ post /\ matches_url w.

(** [w] is the first match in [msg]: no match begins further left, and no
    match beginning at the same place is longer. *)
Definition first_url_match (msg w : pystr) : Prop :=
  exists pre post,
    msg = pre ++ w ++ post /\ matches_url w /\
    forall pre' w' post',
      msg = pre' ++ w' ++ post' -> matches_url w' ->
      (length pre <= length pre')%nat /\
      (length pre' = length pre -> length w' <= length w)%nat.

(** The URL pattern has no group. *)
Definition url_rel (s : pystr) : option (nat * caps) :=
  match url_len s with
  | Some len => Some (len, None)
  | None => None
  end.

(** The keywords are made of lower-case ASCII and CJK characters only, so
    lowering leaves them as they are. *)
Definition plain (k : pystr) : bool :=
  forallb ascii_or_cjk k && str_eqb (map basic_lower k) k.

(** Length and group of the match of the selector pattern at the head of
    [s]: a quote, the longest run of other characters, a quote. *)
Definition sel_rel (s : pystr) : option (nat * caps) :=
  match s with
  | q :: rest =>
    if is_quote q then
      match take_while not_quote rest with
      | [] => None
      | body =>
        match skipn (length body) rest with
        | _ :: _ => Some (length body + 2, Some (1, 1 + length body))%nat
        | [] => None
        end
      end
    else None
  | [] => None
  end.

(** [sel] is quoted at the head of [s]: a quote, the non-empty text [sel]
    without quotes, a quote.  The two quotes need not be the same. *)
Definition quoted_at (s sel : pystr) : Prop :=
  exists q1 q2 post,
    s = q1 :: sel ++ q2 :: post /\
    is_quote q1 = true /\ is_quote q2 = true /\
    sel <> [] /\ Forall (fun c => is_quote c = false) sel.

(** [sel] is the first quoted text of [msg]. *)
Definition first_quoted (msg sel : pystr) : Prop :=
  exists pre rest,
    msg = pre ++ rest /\ quoted_at rest sel /\
    forall pre' rest' sel',
      msg = pre' ++ rest' -> quoted_at rest' sel' ->
      (length pre <= length pre')%nat.

(** What the selector lookup does once the trigger word is there. *)
Definition search_selector (task : pystr) : option pystr :=
  match re_search selector_pattern task with
  | Some selector_match => group1 selector_match
  | None => None
  end.

(** A computation that issues no request and gives the same result
    whatever was issued before. *)
Definition logless {A : Type} (c : M A) : Prop :=
  exists v, forall log, c log = (v, log).

(** The value of a computation that issues no request. *)
Definition value_of {A : Type} (c : M A) : res A := fst (c []).

Section DispatchSpec.

Variable db : unicode_db.
Variable py_repr : pyval -> pystr.
Variable valves : Valves.

(** The request either path builds around its content. *)
Definition request_for (content : pystr) : http_request :=
  {| req_url := chrome_agent_url valves ++ endpoint;
     req_json := chat_payload content;
     req_timeout := timeout valves |}.

(** What a path returns once the backend has answered. *)
Definition after_post (default_content done failed : pystr) (o : outcome)
  : res pystr :=
  match o with
  | Failed e => Raise e
  | Responded r =>
    value_of (handle_response py_repr default_content done failed r)
  end.

(** [full_task] of [_execute_general_task] and [extract_task] of
    [_extract_data]. *)
Definition general_content (task : pystr) (url : option pystr) : pystr :=
  if truthy_opt url then u "访问 " ++ format_opt url ++ u " 然后 " ++ task
  else task.

Definition extract_content (task : pystr) (url : option pystr) : pystr :=
  if truthy_opt url then
    if truthy_opt (find_selector db task) then
      (u "访问 " ++ format_opt url ++ u " 然后 " ++ task)
        ++ u "，使用选择器: " ++ format_opt (find_selector db task)
    else u "访问 " ++ format_opt url ++ u " 然后 " ++ task
  else task.

(** The text the three [except] clauses turn an exception into. *)
Definition failure_text (e : pyexc) : pystr :=
  if is_ConnectionError e then
    u "❌ 无法连接到 Chrome Agent 服务器，请确保服务正在运行"
  else if is_Timeout e then u "⏱️ 请求超时，任务可能需要更长时间执行"
  else u "❌ 执行失败: " ++ exc_str e.

Definition caught (r : res pystr) : pystr :=
  match r with
  | Ok s => s
  | Raise e => failure_text e
  end.

(** The request a browser task issues, and the answer it gives. *)
Definition task_request (task : pystr) : http_request :=
  request_for
    (if is_extract_task db task then extract_content task (find_url task)
     else general_content task (find_url task)).

Definition task_answer (task : pystr) (o : outcome) : res pystr :=
  if is_extract_task db task then
    after_post (u "数据提取完成") (u "✅ 数据提取完成") (u "❌ 数据提取失败") o
  else
    after_post (u "任务已完成") (u "✅ 任务执行完成") (u "❌ 任务执行失败") o.

End DispatchSpec.

(** [k] is a substring of [s]. *)
Definition substring (k s : pystr) : Prop :=
  exists pre post, s = pre ++ k ++ post.

(** The lowered message contains a keyword of the fixed list. *)
Definition contains_keyword (db : unicode_db) (msg : pystr) : Prop :=
  exists k, In k browser_keywords /\ substring k (lower db msg).

(** Sample inputs. *)
Definition chat_message : pystr := u "just chatting, how are you".

Definition silent_backend : list http_request -> http_request -> outcome :=
  fun _ _ => Failed (other_exception (u "unreachable")).

Definition no_repr : pyval -> pystr := fun _ => [].

Definition is_cjk (c : Z) : bool := ((19968 <=? c) && (c <=? 40959))%Z.

Definition is_lower_ascii (c : Z) : bool :=
  ((c =? 32) || (97 <=? c) && (c <=? 122))%Z.

(** The trigger of the selector lookup: the literal Chinese word in the
    message, or [selector] in the lowered message. *)
Definition selector_trigger (db : unicode_db) (task : pystr) : Prop :=
  substring (u "选择器") task \/ substring (u "selector") (lower db task).

(** The word selector, a space, then h1 with a double quote before it
    and a single quote after it. *)
Definition mixed_quotes : pystr := u "selector " ++ [34%Z] ++ u "h1" ++ [39%Z].

Inductive sub_intent := Extract | General.

(** The branch [_execute_browser_task] takes. *)
Definition sub_intent_of (db : unicode_db) (task : pystr) : sub_intent :=
  if is_extract_task db task then Extract else General.

(** A path run under the [try] of [_execute_browser_task]. *)
Definition guarded (c : M pystr) : M pystr :=
  fun log => let (r, log') := c log in (Ok (caught r), log').

Definition title_task : pystr := u "抓取 https://example.com 的标题".

(** The three texts of the [except] clauses. *)
Definition msg_cannot_connect : pystr :=
  u "❌ 无法连接到 Chrome Agent 服务器，请确保服务正在运行".

Definition msg_timed_out : pystr := u "⏱️ 请求超时，任务可能需要更长时间执行".

Definition msg_failed : pystr := u "❌ 执行失败: ".

(** What [requests] raises when connecting takes longer than the timeout:
    an instance of both [ConnectionError] and [Timeout]. *)
Definition ConnectTimeout : pyexc :=
  {| is_ConnectionError := true; is_Timeout := true;
     exc_str := u "connect timeout" |}.

Definition ReadTimeout : pyexc :=
  {| is_ConnectionError := false; is_Timeout := true;
     exc_str := u "read timed out" |}.

(** The wording of the two task kinds. *)
Definition done_text (i : sub_intent) : pystr :=
  match i with
  | Extract => u "✅ 数据提取完成"
  | General => u "✅ 任务执行完成"
  end.

Definition failed_text (i : sub_intent) : pystr :=
  match i with
  | Extract => u "❌ 数据提取失败"
  | General => u "❌ 任务执行失败"
  end.

Definition default_content (i : sub_intent) : pystr :=
  match i with
  | Extract => u "数据提取完成"
  | General => u "任务已完成"
  end.

Definition clicked_response : response :=
  {| status_code := 200;
     text := [];
     json := Ok (PDict [(u "choices",
                         PList [PDict [(u "message",
                                        PDict [(u "content",
                                                PStr (u "Clicked"))])]])]) |}.

Definition click_task : pystr := u "打开网页 https://a.com 并点击按钮".

Definition open_extract_url : pystr := u "打开 https://extract-data.example.com".

(** ** Vocabulary of the further properties *)

(** The answer of a browser task opens with one of three signs: the check
    mark U+2705, the cross U+274C or the stopwatch U+23F1. *)
Definition has_marker (s : pystr) : bool :=
  match s with
  | c :: _ => ((c =? 9989) || (c =? 10060) || (c =? 9201))%Z
  | [] => false
  end.

(** The shapes an answer to a completed response can have. *)
Definition answer_shape (done failed : pystr) (a : res pystr) : Prop :=
  (exists e, a = Raise e) \/
  (exists x, a = Ok (done ++ x)) \/
  (exists x, a = Ok (failed ++ x)) \/
  (exists x, a = Ok (u "❌ 服务器错误 (" ++ x)).

(** The execution-failed text for a value that has no [get]. *)
Definition no_get_text (v : pyval) : pystr :=
  u "❌ 执行失败: " ++ [39%Z] ++ type_name v
    ++ u "' object has no attribute 'get'".

(** The execution-failed text for a value that has no [len]. *)
Definition no_len_text (v : pyval) : pystr :=
  u "❌ 执行失败: " ++ u "object of type '" ++ type_name v
    ++ u "' has no len()".

Definition is_dict (v : pyval) : bool :=
  match v with
  | PDict _ => true
  | _ => false
  end.

(** The requests one call of [pipe] issues. *)
Definition requests_of (db : unicode_db) (valves : Valves) (msg : pystr)
  : list http_request :=
  if is_browser_task db valves msg then [task_request db valves msg] else [].

(** A host calling [pipe] on one message after the other. *)
Fixpoint pipe_all (db : unicode_db) (py_repr : pyval -> pystr)
         (backend : list http_request -> http_request -> outcome)
         (valves : Valves) (msgs : list pystr) (log : list http_request)
  : list (res pystr) * list http_request :=
  match msgs with
  | [] => ([], log)
  | msg :: rest =>
    let (r, log1) := pipe db py_repr backend valves msg [] [] PNone log in
    let (rs, log2) := pipe_all db py_repr backend valves rest log1 in
    (r :: rs, log2)
  end.

Definition is_ok {A : Type} (r : res A) : bool :=
  match r with
  | Ok _ => true
  | Raise _ => false
  end.

(** An attribute selector in single quotes, with double quotes inside. *)
Definition attribute_selector_task : pystr :=
  u "extract selector 'a[href=" ++ [34%Z] ++ u "x" ++ [34%Z] ++ u "]'".

Definition upper_case_url : pystr := u "see HTTP://EXAMPLE.COM/PAGE".

(** A backend that answers every request with status 200 and the JSON
    value [v]. *)
Definition json_response (v : pyval) : response :=
  {| status_code := 200; text := []; json := Ok v |}.

Definition answering (v : pyval) : list http_request -> http_request -> outcome :=
  fun _ _ => Responded (json_response v).

(** A database that also knows the capitals of Latin-1. *)
Definition latin_db : unicode_db := {|
  to_lower_full := fun c =>
    if ((192 <=? c) && (c <=? 222) && negb (c =? 215))%Z then [(c + 32)%Z]
    else [basic_lower c];
  is_cased := fun c =>
    ((65 <=? c) && (c <=? 90) || (97 <=? c) && (c <=? 122)
     || (192 <=? c) && (c <=? 255) && negb (c =? 215) && negb (c =? 247))%Z;
  is_case_ignorable := is_case_ignorable ascii_db
|}.


(** * Properties *)

(** ** Strings *)

Lemma startswith_app (p rest : pystr) : startswith p (p ++ rest) = true.
Proof.
  induction p as [|a p IH]; simpl; [reflexivity|].
  now rewrite Z.eqb_refl.
Qed.

Lemma startswith_inv (p s : pystr) :
  startswith p s = true -> s = p ++ skipn (length p) s.
Proof.
  revert s; induction p as [|a p IH]; intros [|b s] H; simpl in *;
    try reflexivity; try discriminate.
  apply andb_prop in H as [Hab Hps].
  apply Z.eqb_eq in Hab; subst b.
  now rewrite <- (IH s Hps).
Qed.

Lemma str_in_unfold (needle hay : pystr) :
  str_in needle hay =
  startswith needle hay ||
  match hay with [] => false | _ :: hay' => str_in needle hay' end.
Proof. destruct hay; reflexivity. Qed.

Lemma str_in_intro (needle pre post : pystr) :
  str_in needle (pre ++ needle ++ post) = true.
Proof.
  induction pre as [|c pre IH]; simpl.
  - rewrite str_in_unfold, startswith_app. reflexivity.
  - rewrite IH. apply orb_true_r.
Qed.

Lemma str_in_inv (needle hay : pystr) :
  str_in needle hay = true -> exists pre post, hay = pre ++ needle ++ post.
Proof.
  induction hay as [|c hay IH]; simpl; intros H.
  - rewrite orb_false_r in H. apply startswith_inv in H.
    exists [], (skipn (length needle) []). exact H.
  - apply orb_prop in H as [H|H].
    + apply startswith_inv in H.
      exists [], (skipn (length needle) (c :: hay)). exact H.
    + destruct (IH H) as (pre & post & ->).
      exists (c :: pre), post. reflexivity.
Qed.

(** [needle in hay] holds exactly when [needle] is a substring of [hay]. *)
Lemma str_in_iff (needle hay : pystr) :
  str_in needle hay = true <-> exists pre post, hay = pre ++ needle ++ post.
Proof.
  split; [apply str_in_inv|].
  intros (pre & post & ->). apply str_in_intro.
Qed.

Lemma any_in_iff (ks : list pystr) (s : pystr) :
  any_in ks s = true <-> exists k, In k ks /\ str_in k s = true.
Proof. unfold any_in. apply existsb_exists. Qed.

Lemma any_in_false (ks : list pystr) (s : pystr) :
  any_in ks s = false <-> forall k, In k ks -> str_in k s = false.
Proof.
  unfold any_in. split.
  - intros H k Hk. destruct (str_in k s) eqn:E; [|reflexivity].
    assert (existsb (fun k => str_in k s) ks = true)
      by (apply existsb_exists; eauto).
    congruence.
  - intros H. destruct (existsb _ ks) eqn:E; [|reflexivity].
    apply existsb_exists in E as (k & Hk & Hin).
    rewrite (H k Hk) in Hin. discriminate.
Qed.

(** ** The matcher *)

Lemma take_while_split (p : Z -> bool) (s : pystr) :
  s = take_while p s ++ skipn (length (take_while p s)) s.
Proof.
  induction s as [|c s IH]; simpl; [reflexivity|].
  destruct (p c); simpl; [now rewrite <- IH | reflexivity].
Qed.

Lemma take_while_all (p : Z -> bool) (s : pystr) :
  Forall (fun c => p c = true) (take_while p s).
Proof.
  induction s as [|c s IH]; simpl; [constructor|].
  destruct (p c) eqn:E; constructor; assumption.
Qed.

(** After the longest prefix the text ends, or a character outside the
    class follows. *)
Lemma take_while_stop (p : Z -> bool) (s : pystr) :
  match skipn (length (take_while p s)) s with
  | [] => True
  | c :: _ => p c = false
  end.
Proof.
  induction s as [|c s IH]; simpl; [exact I|].
  destruct (p c) eqn:E; simpl; assumption.
Qed.

Lemma take_while_longest (p : Z -> bool) (b rest : pystr) :
  Forall (fun c => p c = true) b ->
  (length b <= length (take_while p (b ++ rest)))%nat.
Proof.
  induction 1 as [|c b Hc _ IH]; simpl; [lia|].
  rewrite Hc. simpl. lia.
Qed.

Lemma take_while_app (p : Z -> bool) (b rest : pystr) :
  Forall (fun c => p c = true) b ->
  match rest with [] => True | c :: _ => p c = false end ->
  take_while p (b ++ rest) = b.
Proof.
  intros Hb Hr. induction Hb as [|c b Hc _ IH]; simpl.
  - destruct rest as [|c rest]; simpl; [reflexivity | now rewrite Hr].
  - now rewrite Hc, IH.
Qed.

Section MatcherFacts.

Variable R : Type.

Lemma m_lits (p : pystr) (r : regex) (n : nat) (s : pystr) (g : caps)
      (k : nat -> pystr -> caps -> option R) :
  m (lits p r) n s g k =
  if startswith p s then m r (n + length p) (skipn (length p) s) g k
  else None.
Proof.
  revert n s; induction p as [|c p IH]; intros n s; simpl.
  - now rewrite Nat.add_0_r.
  - destruct s as [|x s]; [reflexivity|].
    rewrite (Z.eqb_sym c x). destruct (x =? c)%Z; simpl; [|reflexivity].
    rewrite IH. now rewrite Nat.add_succ_comm.
Qed.

Lemma plus_loop_none (p : Z -> bool) (n : nat) (s : pystr)
      (k : nat -> pystr -> option R) :
  take_while p s = [] -> plus_loop p n s k = None.
Proof.
  destruct s as [|c s]; simpl; [reflexivity|].
  destruct (p c); [discriminate | reflexivity].
Qed.

(** Greedy: when what follows accepts the longest run, that is the
    answer. *)
Lemma plus_loop_longest (p : Z -> bool) (s : pystr)
      (k : nat -> pystr -> option R) :
  forall n r,
    take_while p s <> [] ->
    k (n + length (take_while p s)) (skipn (length (take_while p s)) s)
      = Some r ->
    plus_loop p n s k = Some r.
Proof.
  induction s as [|c s IH]; intros n r Hne Hk; simpl in *; [congruence|].
  destruct (p c); [|congruence]. simpl in Hk.
  rewrite <- Nat.add_succ_comm in Hk.
  destruct (take_while p s) as [|d tw] eqn:E.
  - rewrite plus_loop_none by exact E. simpl in Hk.
    now rewrite Nat.add_0_r in Hk.
  - rewrite (IH (S n) r); [reflexivity | discriminate | exact Hk].
Qed.

(** When what follows rejects every text that begins inside the run or
    right after it, the whole match fails. *)
Lemma plus_loop_fail (p : Z -> bool) (s : pystr)
      (k : nat -> pystr -> option R) :
  forall n,
    (forall j, (1 <= j <= length (take_while p s))%nat ->
               k (n + j) (skipn j s) = None) ->
    plus_loop p n s k = None.
Proof.
  induction s as [|c s IH]; intros n Hk; simpl in *; [reflexivity|].
  destruct (p c); [|reflexivity]. simpl in Hk.
  rewrite IH.
  - specialize (Hk 1%nat). simpl in Hk. rewrite Nat.add_1_r in Hk.
    apply Hk. lia.
  - intros j Hj. specialize (Hk (S j)). simpl in Hk.
    rewrite <- Nat.add_succ_comm in Hk. apply Hk. lia.
Qed.

End MatcherFacts.

(** *** Leftmost search *)

Section Search.

Variable r : regex.

(** [f s]: length and group of the match of [r] at the head of [s]. *)
Variable f : pystr -> option (nat * caps).

Hypothesis match_at_f : forall n s,
  match_at r n s =
  match f s with
  | Some (len, g) => Some (n + len, shift n g)%nat
  | None => None
  end.

Lemma search_from_spec (whole : pystr) : forall s n,
  match search_from r whole n s with
  | Some mt =>
    exists pre rest len g,
      s = pre ++ rest /\ f rest = Some (len, g) /\
      (forall pre' rest', s = pre' ++ rest' ->
                          (length pre' < length pre)%nat -> f rest' = None) /\
      mt = {| subject := whole;
              span0 := (n + length pre, n + length pre + len)%nat;
              span1 := shift (n + length pre) g |}
  | None => forall pre rest, s = pre ++ rest -> f rest = None
  end.
Proof.
  induction s as [|c s IH]; intros n; simpl; rewrite match_at_f.
  - destruct (f []) as [[len g]|] eqn:E.
    + exists [], [], len, g. simpl. rewrite Nat.add_0_r.
      repeat split; try assumption. intros; lia.
    + intros pre rest H. symmetry in H.
      apply app_eq_nil in H as [_ ->]. exact E.
  - destruct (f (c :: s)) as [[len g]|] eqn:E.
    + exists [], (c :: s), len, g. simpl. rewrite Nat.add_0_r.
      repeat split; try assumption. intros; lia.
    + specialize (IH (S n)).
      destruct (search_from r whole (S n) s) as [mt|].
      * destruct IH as (pre & rest & len & g & -> & Hf & Hleft & ->).
        exists (c :: pre), rest, len, g. simpl.
        rewrite <- !Nat.add_succ_comm.
        repeat split; try assumption.
        intros [|c' pre'] rest' H Hlen; simpl in *.
        -- now subst rest'.
        -- injection H as -> H. apply (Hleft pre' rest' H). lia.
      * intros [|c' pre] rest H; simpl in *.
        -- now subst rest.
        -- injection H as -> H. now apply (IH pre rest).
Qed.

End Search.

(** *** The URL pattern *)

Lemma plus_loop_last (R : Type) (p : Z -> bool) (n : nat) (s : pystr)
      (h : nat -> R) :
  plus_loop p n s (fun n' _ => Some (h n')) =
  match take_while p s with
  | [] => None
  | body => Some (h (n + length body)%nat)
  end.
Proof.
  destruct (take_while p s) as [|c body] eqn:E.
  - now apply plus_loop_none.
  - rewrite <- E. apply plus_loop_longest; [congruence | reflexivity].
Qed.

Section UrlMatcher.

#[local] Arguments Z.eqb : simpl never.

Lemma match_at_url (n : nat) (s : pystr) :
  match_at url_pattern n s =
  match url_len s with
  | Some len => Some (n + len, None)%nat
  | None => None
  end.
Proof.
  unfold match_at, url_pattern, url_len.
  rewrite m_lits.
  change (u "http") with [104; 116; 116; 112]%Z.
  change (u "https://") with [104; 116; 116; 112; 115; 58; 47; 47]%Z.
  change (u "http://") with [104; 116; 116; 112; 58; 47; 47]%Z.
  change (u "://") with [58; 47; 47]%Z.
  destruct s as [|c0 [|c1 [|c2 [|c3 s4]]]]; simpl;
    try reflexivity;
    try (repeat (destruct (_ =? _)%Z; simpl; try reflexivity); fail).
  destruct (104 =? c0)%Z; simpl; [|reflexivity].
  destruct (116 =? c1)%Z; simpl; [|reflexivity].
  destruct (116 =? c2)%Z; simpl; [|reflexivity].
  destruct (112 =? c3)%Z; simpl; [|reflexivity].
  repeat match goal with
         | H : ?a = ?b |- _ => is_var a; subst a
         | H : ?a = ?b |- _ => is_var b; subst b
         | H : _ = _ |- _ => discriminate H
         | H : ?a <> ?a |- _ => now destruct H
         | |- context [match ?l with [] => _ | _ :: _ => _ end] =>
           is_var l; destruct l; simpl
         | |- context [(?a =? ?b)%Z] => destruct (Z.eqb_spec a b); simpl
         end;
    try reflexivity;
    rewrite (plus_loop_last _ not_space _ _ (fun n' => (n', @None (nat * nat))));
    destruct (take_while not_space _); try reflexivity;
    try (destruct (not_space _)); try reflexivity;
    simpl; repeat f_equal; lia.
Qed.

End UrlMatcher.

Lemma not_space_all (body : pystr) :
  Forall (fun c => not_space c = true) body <->
  Forall (fun c => is_space c = false) body.
Proof.
  unfold not_space. split; intros H; induction H; constructor; auto.
  - now apply negb_true_iff.
  - now apply negb_true_iff.
Qed.

Lemma url_len_sound (s : pystr) (len : nat) :
  url_len s = Some len ->
  exists w post,
    s = w ++ post /\ length w = len /\ matches_url w /\
    match post with [] => True | c :: _ => is_space c = true end.
Proof.
  unfold url_len. intros H.
  destruct (startswith (u "https://") s) eqn:E8.
  - apply startswith_inv in E8.
    change (length (u "https://")) with 8%nat in E8.
    pose proof (take_while_split not_space (skipn 8 s)) as Hsplit.
    pose proof (take_while_all not_space (skipn 8 s)) as Hall.
    pose proof (take_while_stop not_space (skipn 8 s)) as Hstop.
    destruct (take_while not_space (skipn 8 s)) as [|c body] eqn:Eb;
      [discriminate|].
    injection H as <-.
    exists (u "https://" ++ c :: body), (skipn (length (c :: body)) (skipn 8 s)).
    repeat split.
    + rewrite <- app_assoc, <- Hsplit. exact E8.
    + exists (u "https://"), (c :: body). repeat split.
      * now right.
      * discriminate.
      * now apply not_space_all.
    + destruct (skipn (length (c :: body)) (skipn 8 s)); [exact I|].
      now apply negb_false_iff.
  - destruct (startswith (u "http://") s) eqn:E7; [|discriminate].
    apply startswith_inv in E7.
    change (length (u "http://")) with 7%nat in E7.
    pose proof (take_while_split not_space (skipn 7 s)) as Hsplit.
    pose proof (take_while_all not_space (skipn 7 s)) as Hall.
    pose proof (take_while_stop not_space (skipn 7 s)) as Hstop.
    destruct (take_while not_space (skipn 7 s)) as [|c body] eqn:Eb;
      [discriminate|].
    injection H as <-.
    exists (u "http://" ++ c :: body), (skipn (length (c :: body)) (skipn 7 s)).
    repeat split.
    + rewrite <- app_assoc, <- Hsplit. exact E7.
    + exists (u "http://"), (c :: body). repeat split.
      * now left.
      * discriminate.
      * now apply not_space_all.
    + destruct (skipn (length (c :: body)) (skipn 7 s)); [exact I|].
      now apply negb_false_iff.
Qed.

(** A match at the head of [s] is found, and none there is longer. *)
Lemma url_len_complete (w post : pystr) :
  matches_url w ->
  exists len, url_len (w ++ post) = Some len /\ (length w <= len)%nat.
Proof.
  intros (scheme & body & Hs & Hne & Hall & ->).
  apply not_space_all in Hall.
  pose proof (@take_while_longest not_space body post Hall) as Hlong.
  destruct body as [|c body]; [congruence|].
  unfold url_len. rewrite <- app_assoc.
  destruct Hs as [-> | ->].
  - change (startswith (u "https://") (u "http://" ++ (c :: body) ++ post))
      with false.
    rewrite startswith_app.
    change (skipn 7 (u "http://" ++ (c :: body) ++ post))
      with ((c :: body) ++ post).
    destruct (take_while not_space ((c :: body) ++ post)) as [|d tw] eqn:E.
    + simpl in Hlong. lia.
    + eexists; split; [reflexivity|]. rewrite length_app.
      change (length (u "http://")) with 7%nat. lia.
  - rewrite startswith_app.
    change (skipn 8 (u "https://" ++ (c :: body) ++ post))
      with ((c :: body) ++ post).
    destruct (take_while not_space ((c :: body) ++ post)) as [|d tw] eqn:E.
    + simpl in Hlong. lia.
    + eexists; split; [reflexivity|]. rewrite length_app.
      change (length (u "https://")) with 8%nat. lia.
Qed.

Lemma match_at_url_rel (n : nat) (s : pystr) :
  match_at url_pattern n s =
  match url_rel s with
  | Some (len, g) => Some (n + len, shift n g)%nat
  | None => None
  end.
Proof.
  rewrite match_at_url. unfold url_rel. now destruct (url_len s).
Qed.

Lemma app_same_length (A : Type) (a b c d : list A) :
  a ++ b = c ++ d -> length a = length c -> a = c /\ b = d.
Proof.
  revert c; induction a as [|x a IH]; intros [|y c] H Hl; simpl in *;
    try discriminate; [now split|].
  injection H as -> H. injection Hl as Hl.
  destruct (IH c H Hl) as [-> ->]. now split.
Qed.

Lemma slice_app (pre w post : pystr) :
  slice (pre ++ w ++ post) (length pre) (length pre + length w) = w.
Proof.
  unfold slice. rewrite skipn_app, Nat.sub_diag, skipn_all. simpl.
  replace (length pre + length w - length pre)%nat with (length w + 0)%nat
    by lia.
  rewrite firstn_app_2. simpl. apply app_nil_r.
Qed.

Lemma find_url_some (msg w : pystr) :
  find_url msg = Some w -> first_url_match msg w.
Proof.
  unfold find_url, re_search. intros H.
  pose proof (search_from_spec _ _ match_at_url_rel msg msg 0) as Hs.
  destruct (search_from url_pattern msg 0 msg) as [mt|]; [|discriminate].
  injection H as <-.
  destruct Hs as (pre & rest & len & g & Hmsg & Hf & Hleft & ->).
  unfold url_rel in Hf.
  destruct (url_len rest) as [len'|] eqn:Hlen; [|discriminate].
  injection Hf as <- <-.
  destruct (url_len_sound _ _ Hlen) as (w & post & -> & <- & Hw & Hpost).
  unfold group0; simpl. rewrite Hmsg, slice_app.
  exists pre, post. repeat split; try assumption.
  - destruct (Nat.le_gt_cases (length pre) (length pre')) as [Hle|Hgt];
      [exact Hle|].
    rewrite Hmsg in Hleft. specialize (Hleft pre' (w' ++ post') H Hgt).
    unfold url_rel in Hleft.
    destruct (url_len_complete _ post' H0) as (len' & Hlen' & _).
    rewrite Hlen' in Hleft. discriminate.
  - intros Hpre.
    destruct (app_same_length _ _ _ _ _ H (eq_sym Hpre)) as [_ Heq].
    destruct (url_len_complete _ post' H0) as (len' & Hlen' & Hle).
    rewrite <- Heq, Hlen in Hlen'. injection Hlen' as <-. exact Hle.
Qed.

Lemma find_url_none (msg : pystr) :
  find_url msg = None -> ~ contains_url msg.
Proof.
  unfold find_url, re_search. intros H (pre & w & post & Hmsg & Hw).
  pose proof (search_from_spec _ _ match_at_url_rel msg msg 0) as Hs.
  destruct (search_from url_pattern msg 0 msg) as [mt|]; [discriminate|].
  specialize (Hs pre (w ++ post) Hmsg). unfold url_rel in Hs.
  destruct (url_len_complete _ post Hw) as (len & Hlen & _).
  rewrite Hlen in Hs. discriminate.
Qed.

Lemma first_url_match_unique (msg w1 w2 : pystr) :
  first_url_match msg w1 -> first_url_match msg w2 -> w1 = w2.
Proof.
  intros (pre1 & post1 & H1 & M1 & L1) (pre2 & post2 & H2 & M2 & L2).
  destruct (L1 _ _ _ H2 M2) as [Ha Hb].
  destruct (L2 _ _ _ H1 M1) as [Hc Hd].
  assert (Hpre : length pre1 = length pre2) by lia.
  rewrite H1 in H2.
  destruct (app_same_length _ _ _ _ _ H2 Hpre) as [_ Hrest].
  assert (Hw : length w1 = length w2).
  { specialize (Hb (eq_sym Hpre)). specialize (Hd Hpre). lia. }
  now destruct (app_same_length _ _ _ _ _ Hrest Hw).
Qed.

Lemma has_url_find_url (msg : pystr) :
  has_url msg = match find_url msg with Some _ => true | None => false end.
Proof.
  unfold has_url, find_url. now destruct (re_search url_pattern msg).
Qed.

(** [find_url] returns the first match exactly when there is a match. *)
Lemma find_url_iff (msg w : pystr) :
  find_url msg = Some w <-> first_url_match msg w.
Proof.
  split; [apply find_url_some|].
  intros Hw. destruct (find_url msg) as [w'|] eqn:E.
  - f_equal. apply (first_url_match_unique msg _ _ (find_url_some _ _ E) Hw).
  - exfalso. apply (find_url_none _ E).
    destruct Hw as (pre & post & H & M & _). now exists pre, w, post.
Qed.

Lemma has_url_iff (msg : pystr) : has_url msg = true <-> contains_url msg.
Proof.
  rewrite has_url_find_url. split.
  - destruct (find_url msg) as [w|] eqn:E; [|discriminate]. intros _.
    destruct (find_url_some _ _ E) as (pre & post & H & M & _).
    now exists pre, w, post.
  - intros H. destruct (find_url msg) eqn:E; [reflexivity|].
    now destruct (find_url_none _ E).
Qed.

(** ** Lowering *)

Section LowerFacts.

Variable db : unicode_db.
Hypothesis basic : db_basic db.

Lemma lower_char_basic (before : pystr) (c : Z) (after : pystr) :
  ascii_or_cjk c = true -> lower_char db before c after = [basic_lower c].
Proof.
  intros Hc. unfold lower_char.
  destruct (Z.eqb_spec c 931) as [->|_]; [discriminate|].
  now apply basic.
Qed.

(** The context only matters for what a character itself becomes. *)
Lemma do_lower_app (x y before : pystr) :
  exists x', do_lower db before (x ++ y) = x' ++ do_lower db (rev x ++ before) y.
Proof.
  revert before; induction x as [|c x IH]; intros before; simpl.
  - now exists [].
  - destruct (IH (c :: before)) as (x' & ->).
    exists (lower_char db before c (x ++ y) ++ x').
    now rewrite <- !app_assoc.
Qed.

Lemma do_lower_basic (s y before : pystr) :
  forallb ascii_or_cjk s = true ->
  do_lower db before (s ++ y) =
  map basic_lower s ++ do_lower db (rev s ++ before) y.
Proof.
  revert before; induction s as [|c s IH]; intros before Hs; simpl in *.
  - reflexivity.
  - apply andb_prop in Hs as [Hc Hs].
    rewrite lower_char_basic by exact Hc.
    rewrite IH by exact Hs. now rewrite <- !app_assoc.
Qed.

Lemma lower_basic (s : pystr) :
  forallb ascii_or_cjk s = true -> lower db s = map basic_lower s.
Proof.
  intros Hs. unfold lower.
  rewrite <- (app_nil_r s) at 1. rewrite do_lower_basic by exact Hs.
  simpl. apply app_nil_r.
Qed.

(** A run of ASCII and CJK characters anywhere in a message shows up
    lowered in the lowered message. *)
Lemma lower_keeps_basic (s msg : pystr) :
  forallb ascii_or_cjk s = true ->
  str_in s msg = true ->
  str_in (map basic_lower s) (lower db msg) = true.
Proof.
  intros Hs Hin. apply str_in_inv in Hin as (pre & post & ->).
  unfold lower. destruct (do_lower_app pre (s ++ post) []) as (x' & ->).
  rewrite do_lower_basic by exact Hs. apply str_in_intro.
Qed.

End LowerFacts.

Lemma ascii_db_basic : db_basic ascii_db.
Proof. intros c _. reflexivity. Qed.

Lemma plain_keywords :
  forallb plain browser_keywords = true /\ forallb plain extract_keywords = true.
Proof. split; vm_compute; reflexivity. Qed.

Lemma plain_inv (k : pystr) :
  plain k = true -> forallb ascii_or_cjk k = true /\ map basic_lower k = k.
Proof.
  unfold plain, str_eqb. intros H. apply andb_prop in H as [H1 H2].
  split; [exact H1|]. now destruct (list_eq_dec Z.eq_dec (map basic_lower k) k).
Qed.

Lemma str_in_trans (a b c : pystr) :
  str_in a b = true -> str_in b c = true -> str_in a c = true.
Proof.
  intros Hab Hbc.
  apply str_in_inv in Hab as (p1 & q1 & ->).
  apply str_in_inv in Hbc as (p2 & q2 & ->).
  replace (p2 ++ (p1 ++ a ++ q1) ++ q2) with ((p2 ++ p1) ++ a ++ (q1 ++ q2))
    by (now rewrite <- !app_assoc).
  apply str_in_intro.
Qed.

(** ** The selector pattern *)

Lemma skipn_all_not_quote (tw : pystr) (j : nat) :
  Forall (fun c => not_quote c = true) tw ->
  match skipn j tw with
  | [] => True
  | x :: _ => is_quote x = false
  end.
Proof.
  intros H. revert j; induction H as [|c tw Hc _ IH]; intros [|j]; simpl;
    try exact I.
  - now apply negb_true_iff.
  - apply IH.
Qed.

Lemma match_at_selector (n : nat) (s : pystr) :
  match_at selector_pattern n s =
  match sel_rel s with
  | Some (len, g) => Some (n + len, shift n g)%nat
  | None => None
  end.
Proof.
  unfold match_at, selector_pattern, sel_rel.
  destruct s as [|q rest]; cbn [m]; [reflexivity|].
  destruct (is_quote q); [|reflexivity].
  pose proof (take_while_split not_quote rest) as Hsplit.
  pose proof (take_while_all not_quote rest) as Hall.
  pose proof (take_while_stop not_quote rest) as Hstop.
  destruct (take_while not_quote rest) as [|c body] eqn:Etw.
  - apply plus_loop_none. exact Etw.
  - destruct (skipn (length (c :: body)) rest) as [|x tail] eqn:Eskip.
    + apply plus_loop_fail. intros j Hj. rewrite Etw in Hj.
      rewrite app_nil_r in Hsplit. rewrite Hsplit.
      pose proof (skipn_all_not_quote (c :: body) j Hall) as Hj'.
      destruct (skipn j (c :: body)) as [|y rest']; [reflexivity|].
      now rewrite Hj'.
    + rewrite <- Etw in Eskip |- *.
      erewrite plus_loop_longest; [reflexivity | congruence |].
      rewrite Eskip. unfold not_quote in Hstop.
      apply negb_false_iff in Hstop. rewrite Hstop.
      rewrite Etw. unfold shift.
      replace (n + (length (c :: body) + 2))%nat
        with (S (S n + length (c :: body))) by lia.
      replace (n + (1 + length (c :: body)))%nat
        with (S n + length (c :: body))%nat by lia.
      now rewrite Nat.add_1_r.
Qed.

Lemma not_quote_all (sel : pystr) :
  Forall (fun c => is_quote c = false) sel ->
  Forall (fun c => not_quote c = true) sel.
Proof.
  intros H; induction H; constructor; auto. now apply negb_true_iff.
Qed.

Lemma sel_rel_complete (s sel : pystr) :
  quoted_at s sel ->
  sel_rel s = Some (length sel + 2, Some (1, 1 + length sel))%nat.
Proof.
  intros (q1 & q2 & post & -> & Hq1 & Hq2 & Hne & Hall).
  unfold sel_rel. rewrite Hq1.
  rewrite (take_while_app not_quote sel (q2 :: post)).
  - destruct sel as [|c sel]; [congruence|].
    rewrite skipn_app, Nat.sub_diag, skipn_all. reflexivity.
  - now apply not_quote_all.
  - unfold not_quote. now rewrite Hq2.
Qed.

Lemma sel_rel_sound (s : pystr) (len : nat) (g : caps) :
  sel_rel s = Some (len, g) ->
  exists sel, quoted_at s sel /\
              len = (length sel + 2)%nat /\ g = Some (1, 1 + length sel)%nat.
Proof.
  unfold sel_rel. destruct s as [|q rest]; [discriminate|].
  destruct (is_quote q) eqn:Hq; [|discriminate].
  pose proof (take_while_split not_quote rest) as Hsplit.
  pose proof (take_while_all not_quote rest) as Hall.
  pose proof (take_while_stop not_quote rest) as Hstop.
  destruct (take_while not_quote rest) as [|c body]; [discriminate|].
  destruct (skipn (length (c :: body)) rest) as [|x tail]; [discriminate|].
  intros H. injection H as <- <-.
  exists (c :: body). repeat split.
  exists q, x, tail. repeat split.
  - now rewrite Hsplit at 1.
  - exact Hq.
  - now apply negb_false_iff.
  - discriminate.
  - clear -Hall. induction Hall; constructor; auto. now apply negb_true_iff.
Qed.

Lemma search_selector_some (msg sel : pystr) :
  search_selector msg = Some sel -> first_quoted msg sel.
Proof.
  unfold search_selector, re_search. intros H.
  pose proof (search_from_spec _ _ match_at_selector msg msg 0) as Hs.
  destruct (search_from selector_pattern msg 0 msg) as [mt|]; [|discriminate].
  destruct Hs as (pre & rest & len & g & Hmsg & Hf & Hleft & ->).
  destruct (sel_rel_sound _ _ _ Hf) as (sel' & Hq & -> & ->).
  unfold group1 in H; simpl in H. injection H as <-.
  destruct Hq as (q1 & q2 & post & -> & Hq).
  assert (Hslice : slice msg (length pre + 1) (length pre + S (length sel'))
                   = sel').
  { rewrite Hmsg.
    replace (pre ++ q1 :: sel' ++ q2 :: post)
      with ((pre ++ [q1]) ++ sel' ++ q2 :: post)
      by (now rewrite <- app_assoc).
    replace (length pre + 1)%nat with (length (pre ++ [q1]))
      by (rewrite length_app; reflexivity).
    replace (length pre + S (length sel'))%nat
      with (length (pre ++ [q1]) + length sel')%nat
      by (rewrite length_app; simpl; lia).
    apply slice_app. }
  rewrite Hslice.
  exists pre, (q1 :: sel' ++ q2 :: post). repeat split; try assumption.
  - exists q1, q2, post. now split.
  - intros pre' rest' sel2 Hmsg' Hq'.
    destruct (Nat.le_gt_cases (length pre) (length pre')) as [Hle|Hgt];
      [exact Hle|].
    apply sel_rel_complete in Hq'. rewrite (Hleft pre' rest' Hmsg' Hgt) in Hq'.
    discriminate.
Qed.

Lemma search_selector_none (msg : pystr) :
  search_selector msg = None ->
  forall pre rest sel, msg = pre ++ rest -> ~ quoted_at rest sel.
Proof.
  unfold search_selector, re_search. intros H pre rest sel Hmsg Hq.
  pose proof (search_from_spec _ _ match_at_selector msg msg 0) as Hs.
  destruct (search_from selector_pattern msg 0 msg) as [mt|].
  - destruct Hs as (pre0 & rest0 & len & g & _ & Hf & _ & ->).
    destruct (sel_rel_sound _ _ _ Hf) as (sel' & _ & _ & ->).
    discriminate.
  - apply sel_rel_complete in Hq. rewrite (Hs pre rest Hmsg) in Hq.
    discriminate.
Qed.

Lemma quoted_at_unique (s sel1 sel2 : pystr) :
  quoted_at s sel1 -> quoted_at s sel2 -> sel1 = sel2.
Proof.
  intros H1 H2.
  pose proof (sel_rel_complete _ _ H1) as E1.
  pose proof (sel_rel_complete _ _ H2) as E2.
  rewrite E1 in E2. injection E2 as E2 _.
  destruct H1 as (q1 & q2 & post & -> & _).
  destruct H2 as (q1' & q2' & post' & H2 & _).
  injection H2 as _ H2.
  apply (app_same_length _ _ _ _ _ H2). lia.
Qed.

Lemma first_quoted_unique (msg sel1 sel2 : pystr) :
  first_quoted msg sel1 -> first_quoted msg sel2 -> sel1 = sel2.
Proof.
  intros (pre1 & rest1 & H1 & Q1 & L1) (pre2 & rest2 & H2 & Q2 & L2).
  pose proof (L1 _ _ _ H2 Q2). pose proof (L2 _ _ _ H1 Q1).
  rewrite H1 in H2.
  destruct (app_same_length _ _ _ _ _ H2 ltac:(lia)) as [_ <-].
  apply (quoted_at_unique _ _ _ Q1 Q2).
Qed.

Lemma search_selector_iff (msg sel : pystr) :
  search_selector msg = Some sel <-> first_quoted msg sel.
Proof.
  split; [apply search_selector_some|].
  intros Hq. destruct (search_selector msg) as [sel'|] eqn:E.
  - f_equal. apply (first_quoted_unique msg); [|exact Hq].
    now apply search_selector_some.
  - destruct Hq as (pre & rest & Hmsg & Hq & _).
    now destruct (search_selector_none _ E _ _ _ Hmsg Hq).
Qed.

(** A resolved URL or selector is never the empty string. *)
Lemma find_url_truthy (msg w : pystr) :
  find_url msg = Some w -> truthy_opt (Some w) = true.
Proof.
  intros H. apply find_url_some in H as (_ & _ & _ & Hw & _).
  destruct Hw as (scheme & body & [-> | ->] & _ & _ & ->); reflexivity.
Qed.

Lemma search_selector_truthy (msg sel : pystr) :
  search_selector msg = Some sel -> truthy_opt (Some sel) = true.
Proof.
  intros H. apply search_selector_some in H as (_ & rest & _ & Hq & _).
  destruct Hq as (_ & _ & _ & _ & _ & _ & Hne & _).
  destruct sel; [congruence | reflexivity].
Qed.

(** ** Computations that issue no request *)

Lemma logless_ret (A : Type) (a : A) : logless (ret a).
Proof. now exists (Ok a). Qed.

Lemma logless_lift (A : Type) (r : res A) : logless (lift r).
Proof. destruct r as [a|e]; [now exists (Ok a) | now exists (Raise e)]. Qed.

Lemma logless_bind (A B : Type) (c : M A) (k : A -> M B) :
  logless c -> (forall a, logless (k a)) -> logless (bind c k).
Proof.
  intros (v & Hc) Hk. destruct v as [a|e].
  - destruct (Hk a) as (w & Hw). exists w. intros log.
    unfold bind. now rewrite Hc, Hw.
  - exists (Raise e). intros log. unfold bind. now rewrite Hc.
Qed.

Lemma logless_if (A : Type) (b : bool) (c1 c2 : M A) :
  logless c1 -> logless c2 -> logless (if b then c1 else c2).
Proof. now destruct b. Qed.

Create HintDb logless.

#[local] Hint Resolve logless_ret logless_lift logless_bind logless_if
  : logless.

Lemma handle_response_logless (py_repr : pyval -> pystr)
      (default_content done failed : pystr) (r : response) :
  logless (handle_response py_repr default_content done failed r).
Proof.
  unfold handle_response. auto 20 with logless.
Qed.

Lemma logless_run (A : Type) (c : M A) (log : list http_request) :
  logless c -> c log = (value_of c, log).
Proof.
  intros (v & Hc). unfold value_of. now rewrite (Hc []), (Hc log).
Qed.

(** ** One dispatch *)

Section Dispatch.

Variable db : unicode_db.
Variable py_repr : pyval -> pystr.
Variable backend : list http_request -> http_request -> outcome.
Variable valves : Valves.

Lemma general_run (task : pystr) (url : option pystr)
      (log : list http_request) :
  _execute_general_task py_repr backend valves task url log =
  (after_post py_repr (u "任务已完成") (u "✅ 任务执行完成") (u "❌ 任务执行失败")
              (backend log (request_for valves (general_content task url))),
   log ++ [request_for valves (general_content task url)]).
Proof.
  unfold _execute_general_task, bind, requests_post, request_for,
    general_content, after_post.
  destruct (backend log _) as [r|e]; [|reflexivity].
  now rewrite (logless_run _ _ _ (handle_response_logless _ _ _ _ r)).
Qed.

Lemma extract_run (task : pystr) (url : option pystr)
      (log : list http_request) :
  _extract_data db py_repr backend valves task url log =
  (after_post py_repr (u "数据提取完成") (u "✅ 数据提取完成") (u "❌ 数据提取失败")
              (backend log (request_for valves (extract_content db task url))),
   log ++ [request_for valves (extract_content db task url)]).
Proof.
  unfold _extract_data, bind, requests_post, request_for,
    extract_content, after_post.
  destruct (backend log _) as [r|e]; [|reflexivity].
  now rewrite (logless_run _ _ _ (handle_response_logless _ _ _ _ r)).
Qed.

Lemma browser_task_run (task : pystr) (log : list http_request) :
  _execute_browser_task db py_repr backend valves task log =
  (Ok (caught (task_answer db py_repr task (backend log (task_request db valves task)))),
   log ++ [task_request db valves task]).
Proof.
  unfold _execute_browser_task, try_except, task_request, task_answer.
  destruct (is_extract_task db task).
  - rewrite extract_run.
    destruct (after_post _ _ _ _ _) as [s|e]; [reflexivity|].
    unfold caught, failure_text, ret.
    destruct (is_ConnectionError e); [reflexivity|].
    destruct (is_Timeout e); reflexivity.
  - rewrite general_run.
    destruct (after_post _ _ _ _ _) as [s|e]; [reflexivity|].
    unfold caught, failure_text, ret.
    destruct (is_ConnectionError e); [reflexivity|].
    destruct (is_Timeout e); reflexivity.
Qed.

Lemma pipe_run (user_message model_id : pystr) (messages : list pyval)
      (body : pyval) (log : list http_request) :
  pipe db py_repr backend valves user_message model_id messages body log =
  if is_browser_task db valves user_message then
    (Ok (caught (task_answer db py_repr user_message
                             (backend log (task_request db valves user_message)))),
     log ++ [task_request db valves user_message])
  else (Ok user_message, log).
Proof.
  unfold pipe. destruct (is_browser_task db valves user_message).
  - apply browser_task_run.
  - reflexivity.
Qed.

End Dispatch.

(** * The claims *)

Lemma has_keyword_iff (db : unicode_db) (msg : pystr) :
  has_keyword db msg = true <-> contains_keyword db msg.
Proof.
  unfold has_keyword, contains_keyword. rewrite any_in_iff.
  split; intros (k & Hk & H); exists k; split; auto; now apply str_in_iff.
Qed.

Lemma has_keyword_false (db : unicode_db) (msg : pystr) :
  ~ contains_keyword db msg -> has_keyword db msg = false.
Proof.
  intros H. destruct (has_keyword db msg) eqn:E; [|reflexivity].
  now apply has_keyword_iff in E.
Qed.

Lemma has_url_false (msg : pystr) : ~ contains_url msg -> has_url msg = false.
Proof.
  intros H. destruct (has_url msg) eqn:E; [|reflexivity].
  now apply has_url_iff in E.
Qed.

(** C1: a message whose lowered text contains no keyword of the list and
    that contains no match of the URL pattern, and any message at all when
    [enable_auto_detection] is off, is not a browser task; [pipe] returns it
    unchanged and issues no request. *)
Theorem C1_passthrough (db : unicode_db) (py_repr : pyval -> pystr)
        (backend : list http_request -> http_request -> outcome)
        (valves : Valves) (msg model_id : pystr) (messages : list pyval)
        (body : pyval) (log : list http_request) :
  enable_auto_detection valves = false \/
  (~ contains_keyword db msg /\ ~ contains_url msg) ->
  is_browser_task db valves msg = false /\
  pipe db py_repr backend valves msg model_id messages body log = (Ok msg, log).
Proof.
  intros H.
  assert (Hb : is_browser_task db valves msg = false).
  { unfold is_browser_task. destruct H as [-> | [Hk Hu]]; [reflexivity|].
    rewrite (has_keyword_false _ _ Hk), (has_url_false _ Hu).
    apply andb_false_r. }
  split; [exact Hb|]. unfold pipe. now rewrite Hb.
Qed.

Lemma C1_passthrough_witness :
  (enable_auto_detection default_valves = false \/
   (~ contains_keyword ascii_db chat_message /\ ~ contains_url chat_message)) /\
  is_browser_task ascii_db default_valves chat_message = false /\
  pipe ascii_db no_repr silent_backend default_valves chat_message
       (u "model") [] PNone [] = (Ok chat_message, []).
Proof.
  assert (H : ~ contains_keyword ascii_db chat_message /\
              ~ contains_url chat_message).
  { split.
    - intros Hk. apply has_keyword_iff in Hk. vm_compute in Hk. discriminate.
    - intros Hu. apply has_url_iff in Hu. vm_compute in Hu. discriminate. }
  split; [right; exact H|].
  apply (C1_passthrough ascii_db no_repr silent_backend default_valves
                        chat_message (u "model") [] PNone []).
  right; exact H.
Defined.

(** C2: with detection enabled, a message whose lowered text contains one
    of the 25 keywords (16 Chinese, 9 English) is a browser task, whatever
    else it contains; for the ASCII and CJK range this covers every spelling
    of a keyword in upper or lower case. *)
Theorem C2_keyword (db : unicode_db) (valves : Valves) :
  enable_auto_detection valves = true ->
  (length browser_keywords = 25%nat /\
   forallb (forallb is_cjk) (firstn 16 browser_keywords) = true /\
   forallb (forallb is_lower_ascii) (skipn 16 browser_keywords) = true /\
   length (skipn 16 browser_keywords) = 9%nat) /\
  (forall msg, contains_keyword db msg -> is_browser_task db valves msg = true) /\
  (db_basic db ->
   forall msg k spelled,
     In k browser_keywords ->
     forallb ascii_or_cjk spelled = true -> map basic_lower spelled = k ->
     substring spelled msg ->
     is_browser_task db valves msg = true).
Proof.
  intros Hon.
  assert (Hkw : forall msg, contains_keyword db msg ->
                            is_browser_task db valves msg = true).
  { intros msg Hk. unfold is_browser_task. rewrite Hon.
    apply has_keyword_iff in Hk. now rewrite Hk. }
  split; [repeat split; vm_compute; reflexivity|].
  split; [exact Hkw|].
  intros Hdb msg k spelled Hin Hs <- Hsub. apply Hkw.
  exists (map basic_lower spelled). split; [exact Hin|].
  apply str_in_iff. apply lower_keeps_basic; [exact Hdb | exact Hs |].
  now apply str_in_iff.
Qed.

Lemma C2_keyword_witness :
  enable_auto_detection default_valves = true /\
  is_browser_task ascii_db default_valves (u "Please VISIT the page") = true.
Proof.
  split; [reflexivity|].
  destruct (C2_keyword ascii_db default_valves eq_refl) as (_ & _ & Hcase).
  apply (Hcase ascii_db_basic (u "Please VISIT the page") (u "visit")
               (u "VISIT")).
  - vm_compute. tauto.
  - reflexivity.
  - reflexivity.
  - exists (u "Please "), (u " the page"). reflexivity.
Defined.

(** C3: with detection enabled, a message containing a match of the URL
    pattern is a browser task, keyword or not, and the URL handed on is
    exactly the first match (leftmost, and longest there); without a match
    there is no URL. *)
Theorem C3_url (db : unicode_db) (valves : Valves) (msg : pystr) :
  enable_auto_detection valves = true ->
  (contains_url msg ->
   is_browser_task db valves msg = true /\
   exists w, find_url msg = Some w /\ first_url_match msg w) /\
  (forall w, first_url_match msg w -> find_url msg = Some w) /\
  (~ contains_url msg -> find_url msg = None).
Proof.
  intros Hon. repeat split.
  - unfold is_browser_task. rewrite Hon.
    apply has_url_iff in H. rewrite H. apply orb_true_r.
  - apply has_url_iff in H. rewrite has_url_find_url in H.
    destruct (find_url msg) as [w|] eqn:E; [|discriminate].
    exists w. split; [reflexivity|]. now apply find_url_some.
  - intros w. apply find_url_iff.
  - intros Hno. destruct (find_url msg) as [w|] eqn:E; [|reflexivity].
    destruct (find_url_some _ _ E) as (pre & post & Hm & Hw & _).
    destruct Hno. now exists pre, w, post.
Qed.

Lemma C3_url_witness :
  enable_auto_detection default_valves = true /\
  is_browser_task ascii_db default_valves (u "see http://a.b/c?d=1 now") = true /\
  find_url (u "see http://a.b/c?d=1 now") = Some (u "http://a.b/c?d=1").
Proof.
  split; [reflexivity|].
  destruct (C3_url ascii_db default_valves (u "see http://a.b/c?d=1 now")
                   eq_refl) as (H & _ & _).
  assert (Hc : contains_url (u "see http://a.b/c?d=1 now")).
  { exists (u "see "), (u "http://a.b/c?d=1"), (u " now").
    split; [reflexivity|].
    exists (u "http://"), (u "a.b/c?d=1"). repeat split.
    - now left.
    - discriminate.
    - repeat constructor. }
  destruct (H Hc) as (Hb & _). split; [exact Hb|]. reflexivity.
Defined.

Lemma find_selector_trigger (db : unicode_db) (task : pystr) :
  selector_trigger db task -> find_selector db task = search_selector task.
Proof.
  unfold selector_trigger, find_selector, search_selector.
  intros [H|H]; apply str_in_iff in H; rewrite H; [reflexivity|].
  now rewrite orb_true_r.
Qed.

Lemma find_selector_no_trigger (db : unicode_db) (task : pystr) :
  ~ selector_trigger db task -> find_selector db task = None.
Proof.
  unfold selector_trigger, find_selector. intros H.
  destruct (str_in (u "选择器") task) eqn:E1.
  - destruct H. left. now apply str_in_iff.
  - destruct (str_in (u "selector") (lower db task)) eqn:E2; [|reflexivity].
    destruct H. right. now apply str_in_iff.
Qed.

Lemma find_selector_spec (db : unicode_db) (task : pystr) :
  (forall sel,
      find_selector db task = Some sel <->
      selector_trigger db task /\ first_quoted task sel) /\
  (find_selector db task = None <->
   ~ selector_trigger db task \/
   forall pre rest sel, task = pre ++ rest -> ~ quoted_at rest sel).
Proof.
  split.
  - intros sel. split.
    + intros H.
      assert (Ht : selector_trigger db task).
      { unfold selector_trigger. unfold find_selector in H.
        destruct (str_in (u "选择器") task) eqn:E1.
        - left. now apply str_in_iff.
        - destruct (str_in (u "selector") (lower db task)) eqn:E2;
            [|discriminate].
          right. now apply str_in_iff. }
      split; [exact Ht|].
      rewrite (find_selector_trigger _ _ Ht) in H.
      now apply search_selector_iff.
    + intros [Ht Hq]. rewrite (find_selector_trigger _ _ Ht).
      now apply search_selector_iff.
  - split.
    + intros H.
      destruct (str_in (u "选择器") task
                || str_in (u "selector") (lower db task)) eqn:E.
      * right. apply search_selector_none.
        unfold find_selector in H. now rewrite E in H.
      * left. apply orb_false_elim in E as [E1 E2].
        intros [Ht|Ht]; apply str_in_iff in Ht; congruence.
    + intros [Hn|Hn]; [now apply find_selector_no_trigger|].
      destruct (find_selector db task) as [sel|] eqn:E; [|reflexivity].
      unfold find_selector in E.
      destruct (str_in (u "选择器") task
                || str_in (u "selector") (lower db task)); [|discriminate].
      fold (search_selector task) in E.
      apply search_selector_some in E as (pre & rest & Hm & Hq & _).
      now destruct (Hn pre rest sel Hm).
Qed.

(** C4, as the code has it: the selector is resolved exactly when the
    trigger is there and the message has a quoted text, and it is then the
    first non-empty run of characters other than quotes that stands between
    two quote characters, each of them single or double, alike or not.  With
    the trigger and no such text the lookup gives nothing, and it never
    fails. *)
Theorem C4_selector (db : unicode_db) (task : pystr) :
  (forall sel,
      find_selector db task = Some sel <->
      selector_trigger db task /\ first_quoted task sel) /\
  (find_selector db task = None <->
   ~ selector_trigger db task \/
   forall pre rest sel, task = pre ++ rest -> ~ quoted_at rest sel).
Proof. exact (find_selector_spec db task). Qed.

Lemma count_occ_twice (q : Z) (pre body post : pystr) :
  (2 <= count_occ Z.eq_dec (pre ++ q :: body ++ q :: post) q)%nat.
Proof.
  rewrite count_occ_app. simpl. destruct (Z.eq_dec q q); [|congruence].
  rewrite count_occ_app. simpl. destruct (Z.eq_dec q q); [|congruence].
  lia.
Qed.

(** C4 fails as stated: no text of [mixed_quotes] stands between two
    matching quotes, yet the selector [h1] is resolved. *)
Lemma C4_selector_counterexample :
  selector_trigger ascii_db mixed_quotes /\
  (forall q pre body post,
      is_quote q = true -> mixed_quotes <> pre ++ q :: body ++ q :: post) /\
  find_selector ascii_db mixed_quotes = Some (u "h1").
Proof.
  split; [|split].
  - right. apply str_in_iff. reflexivity.
  - intros q pre body post Hq Heq.
    pose proof (count_occ_twice q pre body post) as H2.
    rewrite <- Heq in H2. unfold is_quote in Hq.
    apply orb_prop in Hq as [Hq|Hq]; apply Z.eqb_eq in Hq; subst q;
      vm_compute in H2; lia.
  - reflexivity.
Qed.

(** With matching quotes the lookup gives the quoted text, and without
    quotes it gives nothing. *)
Lemma selector_examples :
  find_selector ascii_db (u "extract selector " ++ [34%Z] ++ u "h1.title" ++ [34%Z])
  = Some (u "h1.title") /\
  find_selector ascii_db (u "extract selector h1.title") = None.
Proof. split; vm_compute; reflexivity. Qed.

(** ** Sub-intent and dispatch *)

Lemma browser_task_route (db : unicode_db) (py_repr : pyval -> pystr)
      (backend : list http_request -> http_request -> outcome)
      (valves : Valves) (task : pystr) (log : list http_request) :
  _execute_browser_task db py_repr backend valves task log =
  match sub_intent_of db task with
  | Extract =>
    guarded (_extract_data db py_repr backend valves task (find_url task)) log
  | General =>
    guarded (_execute_general_task py_repr backend valves task (find_url task))
            log
  end.
Proof.
  rewrite browser_task_run.
  unfold sub_intent_of, guarded, task_request, task_answer.
  destruct (is_extract_task db task).
  - now rewrite extract_run.
  - now rewrite general_run.
Qed.

(** C5: a browser task is an Extract task exactly when its lowered text
    contains one of the five trigger words, and a General task otherwise;
    [_execute_browser_task] runs the path of that sub-intent.  The message
    of the example is an Extract task with URL [https://example.com]. *)
Theorem C5_sub_intent (db : unicode_db) (py_repr : pyval -> pystr)
        (backend : list http_request -> http_request -> outcome)
        (valves : Valves) :
  db_basic db ->
  length extract_keywords = 5%nat /\
  (forall task,
      (sub_intent_of db task = Extract <->
       exists k, In k extract_keywords /\ substring k (lower db task)) /\
      (sub_intent_of db task = General <->
       forall k, In k extract_keywords -> ~ substring k (lower db task))) /\
  (forall task log,
      _execute_browser_task db py_repr backend valves task log =
      match sub_intent_of db task with
      | Extract =>
        guarded (_extract_data db py_repr backend valves task (find_url task))
                log
      | General =>
        guarded (_execute_general_task py_repr backend valves task
                                       (find_url task)) log
      end) /\
  sub_intent_of db title_task = Extract /\
  find_url title_task = Some (u "https://example.com").
Proof.
  intros Hdb. split; [reflexivity|]. split; [|split; [|split]].
  - intros task. unfold sub_intent_of, is_extract_task.
    destruct (any_in extract_keywords (lower db task)) eqn:E.
    + apply any_in_iff in E as (k & Hk & Hin). apply str_in_iff in Hin.
      split; split.
      * intros _. now exists k.
      * reflexivity.
      * discriminate.
      * intros H. now destruct (H k Hk).
    + pose proof (proj1 (any_in_false _ _) E) as Hno.
      assert (Hnone : forall k, In k extract_keywords ->
                                ~ substring k (lower db task)).
      { intros k Hk Hsub. apply str_in_iff in Hsub.
        rewrite (Hno k Hk) in Hsub. discriminate. }
      split; split.
      * discriminate.
      * intros (k & Hk & Hsub). now destruct (Hnone k Hk).
      * intros _. exact Hnone.
      * reflexivity.
  - intros task log. apply browser_task_route.
  - unfold sub_intent_of, is_extract_task.
    rewrite (lower_basic db Hdb title_task) by reflexivity. reflexivity.
  - reflexivity.
Qed.

Lemma C5_sub_intent_witness :
  db_basic ascii_db /\
  sub_intent_of ascii_db title_task = Extract /\
  sub_intent_of ascii_db (u "open website example") = General.
Proof.
  split; [exact ascii_db_basic|].
  destruct (C5_sub_intent ascii_db no_repr silent_backend default_valves
                          ascii_db_basic) as (_ & Hiff & _ & Hex & _).
  split; [exact Hex|].
  apply (proj2 (Hiff (u "open website example"))).
  intros k Hk Hsub. apply str_in_iff in Hsub.
  assert (Hno : any_in extract_keywords
                       (lower ascii_db (u "open website example")) = false)
    by reflexivity.
  rewrite (proj1 (any_in_false _ _) Hno k Hk) in Hsub. discriminate.
Defined.

(** C6: the content of the request is the message itself when it has no
    URL; with a URL it is the visit-then template around URL and message,
    followed, on the Extract path with a resolved selector, by the selector
    clause. *)
Theorem C6_content (db : unicode_db) (py_repr : pyval -> pystr)
        (backend : list http_request -> http_request -> outcome)
        (valves : Valves) (task : pystr) (log : list http_request) :
  exists content,
    snd (_execute_browser_task db py_repr backend valves task log)
    = log ++ [{| req_url := chrome_agent_url valves ++ endpoint;
                 req_json :=
                   PDict [(u "model", PStr (u "chrome-agent-v1"));
                          (u "messages",
                           PList [PDict [(u "role", PStr (u "user"));
                                         (u "content", PStr content)]]);
                          (u "stream", PBool false)];
                 req_timeout := timeout valves |}] /\
    (forall url,
        find_url task = Some url ->
        (forall sel,
            sub_intent_of db task = Extract ->
            find_selector db task = Some sel ->
            content = u "访问 " ++ url ++ u " 然后 " ++ task
                        ++ u "，使用选择器: " ++ sel) /\
        (sub_intent_of db task = General \/ find_selector db task = None ->
         content = u "访问 " ++ url ++ u " 然后 " ++ task)) /\
    (find_url task = None -> content = task).
Proof.
  rewrite browser_task_run. unfold task_request, sub_intent_of. simpl snd.
  destruct (is_extract_task db task).
  - exists (extract_content db task (find_url task)).
    split; [reflexivity|]. unfold extract_content. split.
    + intros url Hurl. rewrite Hurl, (find_url_truthy _ _ Hurl). split.
      * intros sel _ Hsel. rewrite Hsel.
        assert (Ht : truthy_opt (Some sel) = true).
        { destruct (proj1 (proj1 (find_selector_spec db task) sel) Hsel) as [_ Hq].
          apply search_selector_iff in Hq.
          now apply (search_selector_truthy task). }
        rewrite Ht. simpl format_opt. now rewrite <- !app_assoc.
      * intros [H|H]; [discriminate|]. now rewrite H.
    + now intros ->.
  - exists (general_content task (find_url task)).
    split; [reflexivity|]. unfold general_content. split.
    + intros url Hurl. rewrite Hurl, (find_url_truthy _ _ Hurl). split.
      * discriminate.
      * reflexivity.
    + now intros ->.
Qed.

(** C7: [pipe] on a browser task issues exactly one request, a POST to the
    chat-completions endpoint of the configured backend, whatever the
    backend does with it; on any other message it issues none. *)
Theorem C7_one_request (db : unicode_db) (py_repr : pyval -> pystr)
        (backend : list http_request -> http_request -> outcome)
        (valves : Valves) (msg model_id : pystr) (messages : list pyval)
        (body : pyval) (log : list http_request) :
  (is_browser_task db valves msg = true ->
   exists rq,
     snd (pipe db py_repr backend valves msg model_id messages body log)
     = log ++ [rq] /\
     req_url rq = chrome_agent_url valves ++ u "/api/v1/chat/completions" /\
     req_timeout rq = timeout valves) /\
  (is_browser_task db valves msg = false ->
   snd (pipe db py_repr backend valves msg model_id messages body log) = log).
Proof.
  rewrite pipe_run. split; intros ->; cbn [snd].
  - exists (task_request db valves msg). split; [|split]; reflexivity.
  - reflexivity.
Qed.

Lemma C7_one_request_witness :
  is_browser_task ascii_db default_valves (u "visit x") = true /\
  length (snd (pipe ascii_db no_repr silent_backend default_valves
                    (u "visit x") (u "model") [] PNone [])) = 1%nat /\
  is_browser_task ascii_db default_valves chat_message = false /\
  snd (pipe ascii_db no_repr silent_backend default_valves
            chat_message (u "model") [] PNone []) = [].
Proof.
  pose proof (C7_one_request ascii_db no_repr silent_backend default_valves
                             (u "visit x") (u "model") [] PNone []) as [H1 _].
  pose proof (C7_one_request ascii_db no_repr silent_backend default_valves
                             chat_message (u "model") [] PNone []) as [_ H2].
  split; [reflexivity|]. split.
  - destruct (H1 eq_refl) as (rq & -> & _). reflexivity.
  - split; [reflexivity|]. apply H2. reflexivity.
Defined.

(** C8, as the code has it: [pipe] always returns a string.  When the
    request or the handling of its response raises, the string is the
    cannot-connect text for a [ConnectionError], connect timeouts included;
    the timed-out text for a [Timeout] that is not a [ConnectionError]; and
    the execution-failed text followed by the detail of the error for
    anything else. *)
Theorem C8_no_raise (db : unicode_db) (py_repr : pyval -> pystr)
        (backend : list http_request -> http_request -> outcome)
        (valves : Valves) (msg model_id : pystr) (messages : list pyval)
        (body : pyval) (log : list http_request) :
  (exists s,
      fst (pipe db py_repr backend valves msg model_id messages body log)
      = Ok s) /\
  (is_browser_task db valves msg = true ->
   forall e,
     task_answer db py_repr msg (backend log (task_request db valves msg))
     = Raise e ->
     (is_ConnectionError e = true ->
      fst (pipe db py_repr backend valves msg model_id messages body log)
      = Ok msg_cannot_connect) /\
     (is_ConnectionError e = false -> is_Timeout e = true ->
      fst (pipe db py_repr backend valves msg model_id messages body log)
      = Ok msg_timed_out) /\
     (is_ConnectionError e = false -> is_Timeout e = false ->
      fst (pipe db py_repr backend valves msg model_id messages body log)
      = Ok (msg_failed ++ exc_str e))) /\
  (forall e,
      task_answer db py_repr msg (Failed e) = Raise e /\
      forall r, status_code r = 200%Z -> json r = Raise e ->
                task_answer db py_repr msg (Responded r) = Raise e).
Proof.
  rewrite pipe_run. split; [|split].
  - destruct (is_browser_task db valves msg); eexists; reflexivity.
  - intros -> e He. cbn [fst]. rewrite He.
    unfold caught, failure_text, msg_cannot_connect, msg_timed_out, msg_failed.
    split; [|split].
    + intros ->. reflexivity.
    + intros -> ->. reflexivity.
    + intros -> ->. reflexivity.
  - intros e. unfold task_answer, after_post. split.
    + destruct (is_extract_task db msg); reflexivity.
    + intros r H200 Hj. unfold value_of, handle_response.
      rewrite H200, Hj. destruct (is_extract_task db msg); reflexivity.
Qed.

Lemma C8_no_raise_witness :
  is_browser_task ascii_db default_valves (u "visit x") = true /\
  fst (pipe ascii_db no_repr (fun _ _ => Failed ReadTimeout) default_valves
            (u "visit x") (u "model") [] PNone []) = Ok msg_timed_out.
Proof.
  split; [reflexivity|].
  destruct (C8_no_raise ascii_db no_repr (fun _ _ => Failed ReadTimeout)
                        default_valves (u "visit x") (u "model") [] PNone [])
    as (_ & H & _).
  assert (Hr : task_answer ascii_db no_repr (u "visit x") (Failed ReadTimeout)
               = Raise ReadTimeout) by (vm_compute; reflexivity).
  destruct (H eq_refl ReadTimeout Hr) as (_ & Ht & _).
  apply Ht; reflexivity.
Defined.

(** C8 fails as stated: a connect timeout is a timeout, and the answer is
    the cannot-connect text, not the timed-out text. *)
Lemma C8_no_raise_counterexample :
  is_Timeout ConnectTimeout = true /\
  fst (pipe ascii_db no_repr (fun _ _ => Failed ConnectTimeout) default_valves
            (u "visit x") (u "model") [] PNone []) = Ok msg_cannot_connect /\
  msg_cannot_connect <> msg_timed_out.
Proof.
  split; [reflexivity|]. split; [vm_compute; reflexivity|].
  intros H. vm_compute in H. discriminate.
Qed.

(** ** Response mapping *)

Lemma task_answer_kind (db : unicode_db) (py_repr : pyval -> pystr)
      (task : pystr) (r : response) :
  task_answer db py_repr task (Responded r) =
  value_of (handle_response py_repr (default_content (sub_intent_of db task))
                            (done_text (sub_intent_of db task))
                            (failed_text (sub_intent_of db task)) r).
Proof.
  unfold task_answer, sub_intent_of, after_post.
  destruct (is_extract_task db task);
    unfold default_content, done_text, failed_text; reflexivity.
Qed.

Section HandleResponse.

Variable py_repr : pyval -> pystr.
Variables default_c done failed : pystr.
Variable r : response.

Lemma answer_server_error :
  status_code r <> 200%Z ->
  value_of (handle_response py_repr default_c done failed r) = Ok (u "❌ 服务器错误 (" ++ str_of_int (status_code r) ++ u "): "
                 ++ text r).
Proof.
  intros H. unfold value_of, handle_response.
  apply Z.eqb_neq in H. rewrite H. reflexivity.
Qed.

Lemma answer_no_choices (d : list (pystr * pyval)) :
  status_code r = 200%Z -> json r = Ok (PDict d) ->
  dict_lookup d (u "choices") = None \/
  dict_lookup d (u "choices") = Some (PList []) ->
  value_of (handle_response py_repr default_c done failed r) = Ok (failed ++ nl ++ nl ++ u "响应格式异常").
Proof.
  intros H200 Hj Hc. unfold value_of, handle_response.
  rewrite H200, Hj. cbn [Z.eqb Pos.eqb lift bind ret py_get].
  destruct Hc as [-> | ->]; reflexivity.
Qed.

Lemma answer_content (d first fields : list (pystr * pyval))
      (rest : list pyval) :
  status_code r = 200%Z -> json r = Ok (PDict d) ->
  dict_lookup d (u "choices") = Some (PList (PDict first :: rest)) ->
  dict_lookup first (u "message") = Some (PDict fields) ->
  value_of (handle_response py_repr default_c done failed r) =
  Ok (done ++ nl ++ nl ++
      match dict_lookup fields (u "content") with
      | Some content => py_format py_repr content
      | None => default_c
      end).
Proof.
  intros H200 Hj Hc Hm. unfold value_of, handle_response.
  rewrite H200, Hj.
  cbn [Z.eqb Pos.eqb lift bind ret py_get py_getitem_str py_len py_getitem_0].
  rewrite Hc. unfold bind.
  cbn [lift ret truthy py_get py_getitem_str py_len py_getitem_0
       length Nat.eqb negb Z.of_nat Z.ltb Z.compare fst].
  rewrite Hm.
  cbn [lift ret truthy py_get py_getitem_str py_len py_getitem_0
       length Nat.eqb negb Z.of_nat Z.ltb Z.compare fst].
  destruct (dict_lookup fields (u "content")); reflexivity.
Qed.

Lemma answer_no_message (d first : list (pystr * pyval))
      (rest : list pyval) :
  status_code r = 200%Z -> json r = Ok (PDict d) ->
  dict_lookup d (u "choices") = Some (PList (PDict first :: rest)) ->
  dict_lookup first (u "message") = None ->
  value_of (handle_response py_repr default_c done failed r) = Ok (done ++ nl ++ nl ++ default_c).
Proof.
  intros H200 Hj Hc Hm. unfold value_of, handle_response.
  rewrite H200, Hj.
  cbn [Z.eqb Pos.eqb lift bind ret py_get py_getitem_str py_len py_getitem_0].
  rewrite Hc. unfold bind.
  cbn [lift ret truthy py_get py_getitem_str py_len py_getitem_0
       length Nat.eqb negb Z.of_nat Z.ltb Z.compare fst].
  rewrite Hm. reflexivity.
Qed.

End HandleResponse.

(** C9, as the code has it: how a completed response becomes the answer,
    on either path.  A status other than 200 gives the server-error text
    with the status and the raw body.  Status 200 with a body that is a JSON
    object whose [choices] is missing or an empty array gives the failed
    text of the task kind.  Status 200 with a body that is a JSON object
    whose [choices] is a non-empty array, its first element an object and
    the [message] of that element an object or missing, gives the done text
    of the task kind followed by the content of the message, or by the
    default of the task kind when the content or the message is missing. *)
Theorem C9_response (db : unicode_db) (py_repr : pyval -> pystr)
        (backend : list http_request -> http_request -> outcome)
        (valves : Valves) (task : pystr) (log : list http_request)
        (r : response) :
  backend log (task_request db valves task) = Responded r ->
  (status_code r <> 200%Z ->
   fst (_execute_browser_task db py_repr backend valves task log)
   = Ok (u "❌ 服务器错误 (" ++ str_of_int (status_code r) ++ u "): "
           ++ text r)) /\
  (status_code r = 200%Z ->
   forall d, json r = Ok (PDict d) ->
     (dict_lookup d (u "choices") = None \/
      dict_lookup d (u "choices") = Some (PList []) ->
      fst (_execute_browser_task db py_repr backend valves task log)
      = Ok (failed_text (sub_intent_of db task) ++ nl ++ nl
              ++ u "响应格式异常")) /\
     (forall first rest,
         dict_lookup d (u "choices") = Some (PList (PDict first :: rest)) ->
         (forall fields,
             dict_lookup first (u "message") = Some (PDict fields) ->
             (forall content,
                 dict_lookup fields (u "content") = Some content ->
                 fst (_execute_browser_task db py_repr backend valves task log)
                 = Ok (done_text (sub_intent_of db task) ++ nl ++ nl
                         ++ py_format py_repr content) /\
                 forall s, content = PStr s -> py_format py_repr content = s)
             /\
             (dict_lookup fields (u "content") = None ->
              fst (_execute_browser_task db py_repr backend valves task log)
              = Ok (done_text (sub_intent_of db task) ++ nl ++ nl
                      ++ default_content (sub_intent_of db task)))) /\
         (dict_lookup first (u "message") = None ->
          fst (_execute_browser_task db py_repr backend valves task log)
          = Ok (done_text (sub_intent_of db task) ++ nl ++ nl
                  ++ default_content (sub_intent_of db task))))).
Proof.
  intros Hb. rewrite browser_task_run, Hb, task_answer_kind. cbn [fst].
  split.
  - intros Hs. now rewrite answer_server_error.
  - intros H200 d Hj. split.
    + intros Hc. now rewrite (answer_no_choices _ _ _ _ _ d H200 Hj Hc).
    + intros first rest Hc. split.
      * intros fields Hm.
        rewrite (answer_content _ _ _ _ _ d first fields rest H200 Hj Hc Hm).
        split.
        -- intros content ->. split; [reflexivity|]. now intros s ->.
        -- intros ->. reflexivity.
      * intros Hm.
        now rewrite (answer_no_message _ _ _ _ _ d first rest H200 Hj Hc Hm).
Qed.

Lemma C9_response_witness :
  fst (_execute_browser_task ascii_db no_repr (fun _ _ => Responded clicked_response)
                             default_valves click_task [])
  = Ok (u "✅ 任务执行完成" ++ nl ++ nl ++ u "Clicked").
Proof.
  destruct (C9_response ascii_db no_repr (fun _ _ => Responded clicked_response)
                        default_valves click_task [] clicked_response eq_refl)
    as [_ H].
  destruct (H eq_refl _ eq_refl) as [_ H1].
  destruct (H1 _ _ eq_refl) as [H2 _].
  destruct (H2 _ eq_refl) as [H3 _].
  exact (proj1 (H3 _ eq_refl)).
Defined.

(** C9 fails as stated: status 200 with the non-empty [choices] array
    holding the number 5 is answered with the execution-failed text, not
    with the done text followed by a content. *)
Lemma C9_response_counterexample :
  status_code (json_response (PDict [(u "choices", PList [PInt 5])])) = 200%Z /\
  fst (_execute_browser_task ascii_db no_repr
         (answering (PDict [(u "choices", PList [PInt 5])]))
         default_valves click_task [])
  = Ok (u "❌ 执行失败: 'int' object has no attribute 'get'") /\
  forall content,
    fst (_execute_browser_task ascii_db no_repr
           (answering (PDict [(u "choices", PList [PInt 5])]))
           default_valves click_task [])
    <> Ok (u "✅ 任务执行完成" ++ nl ++ nl ++ content).
Proof.
  split; [reflexivity|]. split; [vm_compute; reflexivity|].
  intros content H. vm_compute in H. discriminate.
Qed.

Lemma keyword_in_url (db : unicode_db) (ks : list pystr)
      (task url k : pystr) :
  db_basic db -> forallb plain ks = true ->
  find_url task = Some url -> In k ks -> substring k url ->
  any_in ks (lower db task) = true.
Proof.
  intros Hdb Hplain Hurl Hk Hsub.
  apply any_in_iff. exists k. split; [exact Hk|].
  destruct (plain_inv k (proj1 (forallb_forall _ _) Hplain k Hk)) as [Hb Hl].
  rewrite <- Hl at 1. apply lower_keeps_basic; [exact Hdb | exact Hb |].
  apply (str_in_trans k url task).
  - now apply str_in_iff.
  - apply find_url_some in Hurl as (pre & post & -> & _).
    apply str_in_intro.
Qed.

(** C10: the keyword tests read the whole lowered message, the text of the
    URL included.  A trigger word of the extraction path that occurs in the
    URL sends the task down [_extract_data], and a keyword that occurs in
    the URL makes the keyword test succeed. *)
Theorem C10_url_text (db : unicode_db) (py_repr : pyval -> pystr)
        (backend : list http_request -> http_request -> outcome)
        (valves : Valves) (task url : pystr) :
  db_basic db ->
  find_url task = Some url ->
  (forall k, In k extract_keywords -> substring k url ->
             sub_intent_of db task = Extract /\
             forall log,
               _execute_browser_task db py_repr backend valves task log =
               guarded (_extract_data db py_repr backend valves task (Some url))
                       log) /\
  (forall k, In k browser_keywords -> substring k url ->
             has_keyword db task = true).
Proof.
  intros Hdb Hurl. split.
  - intros k Hk Hsub.
    assert (He : sub_intent_of db task = Extract).
    { unfold sub_intent_of, is_extract_task.
      now rewrite (keyword_in_url db extract_keywords task url k Hdb
                                  (proj2 plain_keywords) Hurl Hk Hsub). }
    split; [exact He|]. intros log.
    now rewrite browser_task_route, He, Hurl.
  - intros k Hk Hsub. unfold has_keyword.
    apply (keyword_in_url db browser_keywords task url k Hdb
                          (proj1 plain_keywords) Hurl Hk Hsub).
Qed.

Lemma C10_url_text_witness :
  db_basic ascii_db /\
  find_url open_extract_url = Some (u "https://extract-data.example.com") /\
  any_in extract_keywords (lower ascii_db (u "打开 ")) = false /\
  sub_intent_of ascii_db open_extract_url = Extract /\
  has_keyword ascii_db open_extract_url = true.
Proof.
  assert (Hurl : find_url open_extract_url
                 = Some (u "https://extract-data.example.com"))
    by (vm_compute; reflexivity).
  destruct (C10_url_text ascii_db no_repr silent_backend default_valves
                         open_extract_url
                         (u "https://extract-data.example.com")
                         ascii_db_basic Hurl) as [He Hk].
  assert (Hsub : substring (u "extract") (u "https://extract-data.example.com")).
  { exists (u "https://"), (u "-data.example.com"). reflexivity. }
  split; [exact ascii_db_basic|]. split; [exact Hurl|].
  split; [reflexivity|]. split.
  - apply (He (u "extract")); [|exact Hsub]. vm_compute. tauto.
  - apply (Hk (u "extract")); [|exact Hsub]. vm_compute. tauto.
Defined.

(** * Further properties of the code *)

(** ** What an extracted URL looks like *)

Lemma scheme_not_space (scheme : pystr) :
  is_scheme scheme -> Forall (fun c => is_space c = false) scheme.
Proof. intros [-> | ->]; repeat constructor. Qed.

(** X1: the URL taken from a message is a piece of the message that opens
    with [http://] or [https://], has at least one more character, holds no
    white space, and runs up to the next white space or the end of the
    message: whatever follows the address without a space belongs to it. *)
Theorem X1_url_shape (msg w : pystr) :
  find_url msg = Some w ->
  exists pre scheme body post,
    msg = pre ++ w ++ post /\ w = scheme ++ body /\
    is_scheme scheme /\ body <> [] /\
    Forall (fun c => is_space c = false) w /\
    match post with [] => True | c :: _ => is_space c = true end.
Proof.
  intros H. apply find_url_some in H as (pre & post & Hmsg & Hw & Hfirst).
  destruct Hw as (scheme & body & Hs & Hne & Hall & ->).
  exists pre, scheme, body, post. repeat split; try assumption.
  - apply Forall_app. split; [now apply scheme_not_space | exact Hall].
  - destruct post as [|c post]; [exact I|].
    destruct (is_space c) eqn:Ec; [reflexivity|]. exfalso.
    assert (Hm : matches_url (scheme ++ body ++ [c])).
    { exists scheme, (body ++ [c]). repeat split; try assumption.
      - destruct body; discriminate.
      - apply Forall_app. split; [exact Hall | now repeat constructor]. }
    assert (Hmsg' : msg = pre ++ (scheme ++ body ++ [c]) ++ post).
    { rewrite Hmsg. now rewrite <- !app_assoc. }
    destruct (Hfirst pre _ post Hmsg' Hm) as [_ Hlen].
    specialize (Hlen eq_refl). rewrite !length_app in Hlen. simpl in Hlen. lia.
Qed.

Lemma X1_url_shape_witness :
  find_url (u "访问https://a.com的标题 now") = Some (u "https://a.com的标题") /\
  exists pre scheme body post,
    u "访问https://a.com的标题 now" = pre ++ u "https://a.com的标题" ++ post /\
    u "https://a.com的标题" = scheme ++ body /\
    is_scheme scheme /\ body <> [] /\
    Forall (fun c => is_space c = false) (u "https://a.com的标题") /\
    match post with [] => True | c :: _ => is_space c = true end.
Proof.
  assert (H : find_url (u "访问https://a.com的标题 now")
              = Some (u "https://a.com的标题")) by (vm_compute; reflexivity).
  split; [exact H|]. exact (X1_url_shape _ _ H).
Defined.

(** X2: a URL is found exactly when [http://] or [https://] occurs in the
    message with a character other than white space right after it.  The
    scheme is matched as written: a message without the lower-case text
    [http] has no URL. *)
Theorem X2_url_detection (msg : pystr) :
  (has_url msg = true <->
   exists pre scheme c post,
     is_scheme scheme /\ is_space c = false /\
     msg = pre ++ scheme ++ c :: post) /\
  (str_in (u "http") msg = false -> find_url msg = None /\ has_url msg = false).
Proof.
  assert (Hiff : has_url msg = true <->
                 exists pre scheme c post,
                   is_scheme scheme /\ is_space c = false /\
                   msg = pre ++ scheme ++ c :: post).
  { rewrite has_url_iff. split.
    - intros (pre & w & post & -> & scheme & body & Hs & Hne & Hall & ->).
      destruct body as [|c body]; [congruence|].
      exists pre, scheme, c, (body ++ post). repeat split; try assumption.
      + now inversion Hall.
      + now rewrite <- !app_assoc.
    - intros (pre & scheme & c & post & Hs & Hc & ->).
      exists pre, (scheme ++ [c]), post. split.
      + now rewrite <- !app_assoc.
      + exists scheme, [c]. repeat split; try assumption.
        * discriminate.
        * now repeat constructor. }
  split; [exact Hiff|].
  intros Hno.
  assert (Hu : has_url msg = false).
  { apply not_true_is_false. intros E.
    apply Hiff in E as (pre & scheme & c & post & Hs & _ & ->).
    assert (Hin : str_in (u "http") (pre ++ scheme ++ c :: post) = true).
    { destruct Hs as [-> | ->].
      - apply (str_in_intro (u "http") pre (u "://" ++ c :: post)).
      - apply (str_in_intro (u "http") pre (u "s://" ++ c :: post)). }
    congruence. }
  split; [|exact Hu].
  rewrite has_url_find_url in Hu. now destruct (find_url msg).
Qed.

Lemma X2_url_detection_witness :
  str_in (u "http") upper_case_url = false /\
  find_url upper_case_url = None /\ has_url upper_case_url = false.
Proof.
  assert (H : str_in (u "http") upper_case_url = false)
    by (vm_compute; reflexivity).
  split; [exact H|]. exact (proj2 (X2_url_detection upper_case_url) H).
Defined.

(** ** What a resolved selector looks like *)

(** X3: a resolved selector is a non-empty piece of the message between two
    quote characters and holds no quote of either kind itself, so a quoted
    selector that has quotes of the other kind inside is cut at the first of
    them. *)
Theorem X3_selector_shape (db : unicode_db) (task sel : pystr) :
  find_selector db task = Some sel ->
  sel <> [] /\
  Forall (fun c => is_quote c = false) sel /\
  exists pre q1 q2 post,
    task = pre ++ q1 :: sel ++ q2 :: post /\
    is_quote q1 = true /\ is_quote q2 = true.
Proof.
  intros H. apply (proj1 (find_selector_spec db task)) in H as [_ Hq].
  destruct Hq as (pre & rest & -> & Hq & _).
  destruct Hq as (q1 & q2 & post & -> & Hq1 & Hq2 & Hne & Hall).
  repeat split; try assumption.
  now exists pre, q1, q2, post.
Qed.

Lemma X3_selector_shape_witness :
  find_selector ascii_db attribute_selector_task = Some (u "a[href=") /\
  Forall (fun c => is_quote c = false) (u "a[href=").
Proof.
  assert (H : find_selector ascii_db attribute_selector_task
              = Some (u "a[href=")) by (vm_compute; reflexivity).
  split; [exact H|].
  exact (proj1 (proj2 (X3_selector_shape ascii_db _ _ H))).
Defined.

(** ** Responses that are not of the expected shape *)

Lemma browser_answer (db : unicode_db) (py_repr : pyval -> pystr)
      (backend : list http_request -> http_request -> outcome)
      (valves : Valves) (task : pystr) (log : list http_request)
      (r : response) :
  backend log (task_request db valves task) = Responded r ->
  fst (_execute_browser_task db py_repr backend valves task log) =
  Ok (caught (value_of
                (handle_response py_repr
                                 (default_content (sub_intent_of db task))
                                 (done_text (sub_intent_of db task))
                                 (failed_text (sub_intent_of db task)) r))).
Proof.
  intros Hb. now rewrite browser_task_run, Hb, task_answer_kind.
Qed.

Lemma no_get_caught (v : pyval) :
  caught (Raise (AttributeError v (u "get"))) = no_get_text v.
Proof.
  unfold caught, failure_text, AttributeError, other_exception, no_get_text.
  cbn [is_ConnectionError is_Timeout exc_str].
  do 3 f_equal; vm_compute; reflexivity.
Qed.

Lemma no_len_caught (v : pyval) :
  caught (Raise (TypeError_len v)) = no_len_text v.
Proof.
  unfold caught, failure_text, TypeError_len, other_exception, no_len_text.
  cbn [is_ConnectionError is_Timeout exc_str]. reflexivity.
Qed.

Section Malformed.

Variable py_repr : pyval -> pystr.
Variables default_c done failed : pystr.
Variable r : response.

Hypothesis status_ok : status_code r = 200%Z.

Ltac start_200 Hj :=
  unfold value_of, handle_response; rewrite status_ok, Hj;
  cbn [Z.eqb Pos.eqb lift bind ret py_get py_getitem_str py_len py_getitem_0].

Ltac step :=
  unfold bind;
  cbn [lift ret truthy py_get py_getitem_str py_len py_getitem_0
       length Nat.eqb negb Z.of_nat Z.ltb Z.compare fst is_dict].

Lemma answer_falsy_choices (d : list (pystr * pyval)) (c : pyval) :
  json r = Ok (PDict d) ->
  dict_lookup d (u "choices") = Some c -> truthy c = false ->
  value_of (handle_response py_repr default_c done failed r)
  = Ok (failed ++ nl ++ nl ++ u "响应格式异常").
Proof.
  intros Hj Hc Ht. start_200 Hj. rewrite Hc. step. now rewrite Ht.
Qed.

Lemma answer_not_object (v : pyval) :
  json r = Ok v -> is_dict v = false ->
  value_of (handle_response py_repr default_c done failed r)
  = Raise (AttributeError v (u "get")).
Proof.
  intros Hj Hv. start_200 Hj. destruct v; try discriminate; reflexivity.
Qed.

Lemma answer_first_not_object (d : list (pystr * pyval)) (first : pyval)
      (rest : list pyval) :
  json r = Ok (PDict d) ->
  dict_lookup d (u "choices") = Some (PList (first :: rest)) ->
  is_dict first = false ->
  value_of (handle_response py_repr default_c done failed r)
  = Raise (AttributeError first (u "get")).
Proof.
  intros Hj Hc Hf. start_200 Hj. rewrite Hc. step.
  destruct first; try discriminate; reflexivity.
Qed.

Lemma answer_message_not_object (d fd : list (pystr * pyval))
      (rest : list pyval) (message : pyval) :
  json r = Ok (PDict d) ->
  dict_lookup d (u "choices") = Some (PList (PDict fd :: rest)) ->
  dict_lookup fd (u "message") = Some message ->
  is_dict message = false ->
  value_of (handle_response py_repr default_c done failed r)
  = Raise (AttributeError message (u "get")).
Proof.
  intros Hj Hc Hm Hf. start_200 Hj. rewrite Hc. step. rewrite Hm. step.
  destruct message; try discriminate; reflexivity.
Qed.

Lemma answer_choices_text (d : list (pystr * pyval)) (c : Z) (s : pystr) :
  json r = Ok (PDict d) ->
  dict_lookup d (u "choices") = Some (PStr (c :: s)) ->
  value_of (handle_response py_repr default_c done failed r)
  = Raise (AttributeError (PStr [c]) (u "get")).
Proof.
  intros Hj Hc. start_200 Hj. rewrite Hc. step. reflexivity.
Qed.

Lemma answer_choices_object (d d' : list (pystr * pyval))
      (kv : pystr * pyval) :
  json r = Ok (PDict d) ->
  dict_lookup d (u "choices") = Some (PDict (kv :: d')) ->
  value_of (handle_response py_repr default_c done failed r)
  = Raise (other_exception (u "0")).
Proof.
  intros Hj Hc. start_200 Hj. rewrite Hc. step. reflexivity.
Qed.

Lemma answer_choices_scalar (d : list (pystr * pyval)) (c : pyval) :
  json r = Ok (PDict d) ->
  dict_lookup d (u "choices") = Some c -> truthy c = true ->
  match c with PBool _ | PInt _ | PFloat _ _ => True | _ => False end ->
  value_of (handle_response py_repr default_c done failed r)
  = Raise (TypeError_len c).
Proof.
  intros Hj Hc Ht Hk. start_200 Hj. rewrite Hc. step. rewrite Ht.
  destruct c; try contradiction; reflexivity.
Qed.

End Malformed.

(** X4: a 200 response whose [choices] is there but false in Python's sense
    (null, false, zero, an empty text, array or object) is answered like one
    without [choices]: with the format-invalid text of the task kind. *)
Theorem X4_falsy_choices (db : unicode_db) (py_repr : pyval -> pystr)
        (backend : list http_request -> http_request -> outcome)
        (valves : Valves) (task : pystr) (log : list http_request)
        (r : response) (d : list (pystr * pyval)) (c : pyval) :
  backend log (task_request db valves task) = Responded r ->
  status_code r = 200%Z -> json r = Ok (PDict d) ->
  dict_lookup d (u "choices") = Some c -> truthy c = false ->
  fst (_execute_browser_task db py_repr backend valves task log)
  = Ok (failed_text (sub_intent_of db task) ++ nl ++ nl ++ u "响应格式异常").
Proof.
  intros Hb H200 Hj Hc Ht.
  rewrite (browser_answer _ _ _ _ _ _ r Hb).
  now rewrite (answer_falsy_choices _ _ _ _ r H200 d c Hj Hc Ht).
Qed.

Lemma X4_falsy_choices_witness :
  fst (_execute_browser_task ascii_db no_repr
         (answering (PDict [(u "choices", PNone)])) default_valves click_task [])
  = Ok (failed_text (sub_intent_of ascii_db click_task) ++ nl ++ nl
          ++ u "响应格式异常") /\
  sub_intent_of ascii_db click_task = General.
Proof.
  assert (Hc : dict_lookup [(u "choices", PNone)] (u "choices") = Some PNone)
    by (vm_compute; reflexivity).
  split; [|vm_compute; reflexivity].
  exact (X4_falsy_choices ascii_db no_repr
           (answering (PDict [(u "choices", PNone)])) default_valves click_task
           [] (json_response (PDict [(u "choices", PNone)]))
           [(u "choices", PNone)] PNone eq_refl eq_refl eq_refl Hc eq_refl).
Defined.

(** X5: a 200 response whose JSON body is not an object makes the lookup of
    [choices] fail; the failure is caught and the answer is the
    execution-failed text naming the type of the body. *)
Theorem X5_body_not_object (db : unicode_db) (py_repr : pyval -> pystr)
        (backend : list http_request -> http_request -> outcome)
        (valves : Valves) (task : pystr) (log : list http_request)
        (r : response) (v : pyval) :
  backend log (task_request db valves task) = Responded r ->
  status_code r = 200%Z -> json r = Ok v -> is_dict v = false ->
  fst (_execute_browser_task db py_repr backend valves task log)
  = Ok (no_get_text v).
Proof.
  intros Hb H200 Hj Hv.
  rewrite (browser_answer _ _ _ _ _ _ r Hb).
  rewrite (answer_not_object _ _ _ _ r H200 v Hj Hv).
  now rewrite no_get_caught.
Qed.

Lemma X5_body_not_object_witness :
  fst (_execute_browser_task ascii_db no_repr (answering (PList []))
                             default_valves click_task [])
  = Ok (no_get_text (PList [])) /\
  no_get_text (PList [])
  = u "❌ 执行失败: 'list' object has no attribute 'get'".
Proof.
  split; [|vm_compute; reflexivity].
  exact (X5_body_not_object ascii_db no_repr (answering (PList []))
           default_valves click_task [] (json_response (PList [])) (PList [])
           eq_refl eq_refl eq_refl eq_refl).
Defined.

(** X6: in a 200 response with a non-empty [choices] array, a first element
    that is not an object, or a [message] in it that is not an object, gives
    the execution-failed text naming the type of the offending value, not
    the done text. *)
Theorem X6_choice_not_object (db : unicode_db) (py_repr : pyval -> pystr)
        (backend : list http_request -> http_request -> outcome)
        (valves : Valves) (task : pystr) (log : list http_request)
        (r : response) (d : list (pystr * pyval)) :
  backend log (task_request db valves task) = Responded r ->
  status_code r = 200%Z -> json r = Ok (PDict d) ->
  (forall first rest,
      dict_lookup d (u "choices") = Some (PList (first :: rest)) ->
      is_dict first = false ->
      fst (_execute_browser_task db py_repr backend valves task log)
      = Ok (no_get_text first)) /\
  (forall fd rest message,
      dict_lookup d (u "choices") = Some (PList (PDict fd :: rest)) ->
      dict_lookup fd (u "message") = Some message ->
      is_dict message = false ->
      fst (_execute_browser_task db py_repr backend valves task log)
      = Ok (no_get_text message)).
Proof.
  intros Hb H200 Hj. rewrite (browser_answer _ _ _ _ _ _ r Hb). split.
  - intros first rest Hc Hf.
    rewrite (answer_first_not_object _ _ _ _ r H200 d first rest Hj Hc Hf).
    apply f_equal, no_get_caught.
  - intros fd rest message Hc Hm Hf.
    rewrite (answer_message_not_object _ _ _ _ r H200 d fd rest message
                                       Hj Hc Hm Hf).
    apply f_equal, no_get_caught.
Qed.

Lemma X6_choice_not_object_witness :
  fst (_execute_browser_task ascii_db no_repr
         (answering (PDict [(u "choices", PList [PInt 5])]))
         default_valves click_task [])
  = Ok (no_get_text (PInt 5)) /\
  no_get_text (PInt 5) = u "❌ 执行失败: 'int' object has no attribute 'get'".
Proof.
  assert (Hc : dict_lookup [(u "choices", PList [PInt 5])] (u "choices")
               = Some (PList [PInt 5])) by (vm_compute; reflexivity).
  split; [|vm_compute; reflexivity].
  exact (proj1 (X6_choice_not_object ascii_db no_repr
                  (answering (PDict [(u "choices", PList [PInt 5])]))
                  default_valves click_task []
                  (json_response (PDict [(u "choices", PList [PInt 5])]))
                  [(u "choices", PList [PInt 5])] eq_refl eq_refl eq_refl)
               (PInt 5) [] Hc eq_refl).
Defined.

(** X7: a 200 response whose [choices] is true in Python's sense but not an
    array is not answered with the format-invalid text.  A non-empty text
    is indexed and its first character has no [get]; a non-empty object has
    no key 0 and the answer is the execution-failed text followed by 0; a
    number or [true] has no length. *)
Theorem X7_choices_not_array (db : unicode_db) (py_repr : pyval -> pystr)
        (backend : list http_request -> http_request -> outcome)
        (valves : Valves) (task : pystr) (log : list http_request)
        (r : response) (d : list (pystr * pyval)) :
  backend log (task_request db valves task) = Responded r ->
  status_code r = 200%Z -> json r = Ok (PDict d) ->
  (forall c s,
      dict_lookup d (u "choices") = Some (PStr (c :: s)) ->
      fst (_execute_browser_task db py_repr backend valves task log)
      = Ok (no_get_text (PStr [c]))) /\
  (forall kv d',
      dict_lookup d (u "choices") = Some (PDict (kv :: d')) ->
      fst (_execute_browser_task db py_repr backend valves task log)
      = Ok (u "❌ 执行失败: " ++ u "0")) /\
  (forall c,
      dict_lookup d (u "choices") = Some c -> truthy c = true ->
      match c with PBool _ | PInt _ | PFloat _ _ => True | _ => False end ->
      fst (_execute_browser_task db py_repr backend valves task log)
      = Ok (no_len_text c)).
Proof.
  intros Hb H200 Hj. rewrite (browser_answer _ _ _ _ _ _ r Hb).
  split; [|split].
  - intros c s Hc.
    rewrite (answer_choices_text _ _ _ _ r H200 d c s Hj Hc).
    apply f_equal, no_get_caught.
  - intros kv d' Hc.
    now rewrite (answer_choices_object _ _ _ _ r H200 d d' kv Hj Hc).
  - intros c Hc Ht Hk.
    rewrite (answer_choices_scalar _ _ _ _ r H200 d c Hj Hc Ht Hk).
    apply f_equal, no_len_caught.
Qed.

Lemma X7_choices_not_array_witness :
  fst (_execute_browser_task ascii_db no_repr
         (answering (PDict [(u "choices", PInt 3)]))
         default_valves click_task [])
  = Ok (no_len_text (PInt 3)) /\
  no_len_text (PInt 3) = u "❌ 执行失败: object of type 'int' has no len()".
Proof.
  assert (Hc : dict_lookup [(u "choices", PInt 3)] (u "choices")
               = Some (PInt 3)) by (vm_compute; reflexivity).
  split; [|vm_compute; reflexivity].
  exact (proj2 (proj2 (X7_choices_not_array ascii_db no_repr
                         (answering (PDict [(u "choices", PInt 3)]))
                         default_valves click_task []
                         (json_response (PDict [(u "choices", PInt 3)]))
                         [(u "choices", PInt 3)] eq_refl eq_refl eq_refl))
               (PInt 3) Hc eq_refl I).
Defined.

(** ** The answer of a browser task *)

Lemma handle_response_shape (py_repr : pyval -> pystr)
      (default_c done failed : pystr) (r : response) :
  answer_shape done failed
               (value_of (handle_response py_repr default_c done failed r)).
Proof.
  unfold answer_shape, value_of, handle_response.
  destruct (status_code r =? 200)%Z;
    [|right; right; right; eexists; reflexivity].
  unfold bind, lift, ret.
  destruct (json r) as [result|e]; [|left; eexists; reflexivity].
  destruct (py_get result (u "choices") PNone) as [choices|e];
    [|left; eexists; reflexivity].
  destruct (truthy choices).
  - destruct (py_getitem_str py_repr result (u "choices")) as [c|e];
      [|left; eexists; reflexivity].
    destruct (py_len c) as [n|e]; [|left; eexists; reflexivity].
    destruct (0 <? n)%Z; [|right; right; left; eexists; reflexivity].
    destruct (py_getitem_0 c) as [first|e]; [|left; eexists; reflexivity].
    destruct (py_get first (u "message") (PDict [])) as [message|e];
      [|left; eexists; reflexivity].
    destruct (py_get message (u "content") (PStr default_c)) as [content|e];
      [|left; eexists; reflexivity].
    right; left; eexists; reflexivity.
  - right; right; left; eexists; reflexivity.
Qed.

Lemma has_marker_app (a x : pystr) :
  has_marker a = true -> has_marker (a ++ x) = true.
Proof. destruct a; [discriminate | trivial]. Qed.

Lemma failure_text_marker (e : pyexc) : has_marker (failure_text e) = true.
Proof.
  unfold failure_text.
  destruct (is_ConnectionError e); [vm_compute; reflexivity|].
  destruct (is_Timeout e); [vm_compute; reflexivity|].
  apply has_marker_app. vm_compute. reflexivity.
Qed.

(** X8: whatever the backend does, [pipe] answers a browser task with a
    text that is not empty and opens with the check mark, the cross or the
    stopwatch. *)
Theorem X8_answer_marker (db : unicode_db) (py_repr : pyval -> pystr)
        (backend : list http_request -> http_request -> outcome)
        (valves : Valves) (msg model_id : pystr) (messages : list pyval)
        (body : pyval) (log : list http_request) :
  is_browser_task db valves msg = true ->
  exists answer,
    fst (pipe db py_repr backend valves msg model_id messages body log)
    = Ok answer /\ has_marker answer = true.
Proof.
  intros Hb. rewrite pipe_run, Hb. cbn [fst].
  eexists; split; [reflexivity|].
  destruct (backend log (task_request db valves msg)) as [r|e].
  - rewrite task_answer_kind.
    destruct (handle_response_shape py_repr
                (default_content (sub_intent_of db msg))
                (done_text (sub_intent_of db msg))
                (failed_text (sub_intent_of db msg)) r)
      as [(e & ->) | [(x & ->) | [(x & ->) | (x & ->)]]]; cbn [caught].
    + apply failure_text_marker.
    + apply has_marker_app.
      destruct (sub_intent_of db msg); vm_compute; reflexivity.
    + apply has_marker_app.
      destruct (sub_intent_of db msg); vm_compute; reflexivity.
    + apply has_marker_app. vm_compute. reflexivity.
  - replace (task_answer db py_repr msg (Failed e)) with (@Raise pystr e)
      by (unfold task_answer, after_post;
          destruct (is_extract_task db msg); reflexivity).
    apply failure_text_marker.
Qed.

Lemma X8_answer_marker_witness :
  is_browser_task ascii_db default_valves click_task = true /\
  exists answer,
    fst (pipe ascii_db no_repr (answering (PList [])) default_valves click_task
              [] [] PNone []) = Ok answer /\ has_marker answer = true.
Proof.
  assert (H : is_browser_task ascii_db default_valves click_task = true)
    by (vm_compute; reflexivity).
  split; [exact H|].
  exact (X8_answer_marker ascii_db no_repr (answering (PList []))
                          default_valves click_task [] [] PNone [] H).
Defined.

(** ** What is sent *)

Lemma substring_app_l (k x y : pystr) : substring k y -> substring k (x ++ y).
Proof.
  intros (pre & post & ->). exists (x ++ pre), post.
  now rewrite <- app_assoc.
Qed.

Lemma substring_app_r (k x y : pystr) : substring k x -> substring k (x ++ y).
Proof.
  intros (pre & post & ->). exists pre, (post ++ y).
  now rewrite <- !app_assoc.
Qed.

Lemma substring_refl (k : pystr) : substring k k.
Proof. exists [], []. now rewrite app_nil_r. Qed.

(** X9: the message is never dropped or rewritten on its way to the
    backend: the content of the request always contains it whole, and ends
    with it unless the selector clause is appended.  When a URL was found
    the content also names it before the message. *)
Theorem X9_content_keeps_message (db : unicode_db) (py_repr : pyval -> pystr)
        (backend : list http_request -> http_request -> outcome)
        (valves : Valves) (task : pystr) (log : list http_request) :
  exists content,
    snd (_execute_browser_task db py_repr backend valves task log)
    = log ++ [request_for valves content] /\
    substring task content /\
    (sub_intent_of db task = General \/ find_selector db task = None \/
     find_url task = None ->
     exists pre, content = pre ++ task) /\
    (forall url, find_url task = Some url ->
                 exists rest, content = u "访问 " ++ url ++ rest).
Proof.
  rewrite browser_task_run. cbn [snd]. unfold task_request, sub_intent_of.
  destruct (is_extract_task db task).
  - exists (extract_content db task (find_url task)).
    split; [reflexivity|]. unfold extract_content.
    destruct (truthy_opt (find_url task)) eqn:Eu.
    + destruct (truthy_opt (find_selector db task)) eqn:Es.
      * split; [|split].
        -- apply substring_app_r. do 3 apply substring_app_l.
           apply substring_refl.
        -- intros [H | [H | H]]; [discriminate | | ];
             rewrite H in *; discriminate.
        -- intros url ->. eexists. cbn [format_opt].
           rewrite <- !app_assoc. reflexivity.
      * split; [|split].
        -- do 3 apply substring_app_l. apply substring_refl.
        -- intros _. eexists. rewrite !app_assoc. reflexivity.
        -- intros url ->. eexists. reflexivity.
    + split; [apply substring_refl|]. split.
      * intros _. now exists [].
      * intros url H. rewrite H in Eu.
        now rewrite (find_url_truthy _ _ H) in Eu.
  - exists (general_content task (find_url task)).
    split; [reflexivity|]. unfold general_content.
    destruct (truthy_opt (find_url task)) eqn:Eu.
    + split; [|split].
      * do 3 apply substring_app_l. apply substring_refl.
      * intros _. eexists. rewrite !app_assoc. reflexivity.
      * intros url ->. eexists. reflexivity.
    + split; [apply substring_refl|]. split.
      * intros _. now exists [].
      * intros url H. rewrite H in Eu.
        now rewrite (find_url_truthy _ _ H) in Eu.
Qed.

(** ** Calls in sequence *)

Lemma pipe_all_run (db : unicode_db) (py_repr : pyval -> pystr)
      (backend : list http_request -> http_request -> outcome)
      (valves : Valves) (msgs : list pystr) :
  forall log,
    snd (pipe_all db py_repr backend valves msgs log)
    = log ++ flat_map (requests_of db valves) msgs /\
    length (fst (pipe_all db py_repr backend valves msgs log)) = length msgs /\
    forallb is_ok (fst (pipe_all db py_repr backend valves msgs log)) = true.
Proof.
  induction msgs as [|msg rest IH]; intros log; cbn [pipe_all flat_map].
  - cbn [fst snd]. now rewrite app_nil_r.
  - rewrite pipe_run. unfold requests_of.
    destruct (is_browser_task db valves msg).
    + specialize (IH (log ++ [task_request db valves msg])).
      destruct (pipe_all db py_repr backend valves rest
                         (log ++ [task_request db valves msg])) as [rs log2].
      cbn [fst snd] in *. destruct IH as (-> & Hl & Hok).
      repeat split.
      * now rewrite <- app_assoc.
      * cbn [length]. now rewrite Hl.
      * cbn [forallb is_ok]. exact Hok.
    + specialize (IH log).
      destruct (pipe_all db py_repr backend valves rest log) as [rs log2].
      cbn [fst snd] in *. destruct IH as (-> & Hl & Hok).
      repeat split.
      * cbn [length]. now rewrite Hl.
      * cbn [forallb is_ok]. exact Hok.
Qed.

(** X10: calls of [pipe] one after the other keep nothing between them.
    The requests issued are, in order, one per message that is a browser
    task and none for the others, each depending only on its own message
    and the configuration; the same browser task sent twice is sent to the
    backend twice.  Every call returns. *)
Theorem X10_calls_in_sequence (db : unicode_db) (py_repr : pyval -> pystr)
        (backend : list http_request -> http_request -> outcome)
        (valves : Valves) (msgs : list pystr) (log : list http_request) :
  snd (pipe_all db py_repr backend valves msgs log)
  = log ++ flat_map (requests_of db valves) msgs /\
  length (fst (pipe_all db py_repr backend valves msgs log)) = length msgs /\
  forallb is_ok (fst (pipe_all db py_repr backend valves msgs log)) = true /\
  (forall msg,
      is_browser_task db valves msg = true ->
      snd (pipe_all db py_repr backend valves [msg; msg] log)
      = log ++ [task_request db valves msg; task_request db valves msg]).
Proof.
  destruct (pipe_all_run db py_repr backend valves msgs log) as (H1 & H2 & H3).
  repeat split; try assumption.
  intros msg Hb.
  destruct (pipe_all_run db py_repr backend valves [msg; msg] log) as (-> & _).
  cbn [flat_map]. unfold requests_of. now rewrite Hb.
Qed.

(** ** Messages in ASCII and CJK *)

Lemma lower_same (db1 db2 : unicode_db) (msg : pystr) :
  db_basic db1 -> db_basic db2 -> forallb ascii_or_cjk msg = true ->
  lower db1 msg = lower db2 msg.
Proof.
  intros H1 H2 Hm. now rewrite (lower_basic db1 H1), (lower_basic db2 H2).
Qed.

(** X11: for a message written in ASCII and CJK ideographs only, what
    [pipe] does is settled by lowering the ASCII capitals: the keyword
    test reads the message with A to Z replaced by a to z, and two
    interpreters whose Unicode tables agree on that range classify and
    dispatch the message alike. *)
Theorem X11_basic_messages (db1 db2 : unicode_db) (py_repr : pyval -> pystr)
        (backend : list http_request -> http_request -> outcome)
        (valves : Valves) (msg model_id : pystr) (messages : list pyval)
        (body : pyval) (log : list http_request) :
  db_basic db1 -> db_basic db2 -> forallb ascii_or_cjk msg = true ->
  has_keyword db1 msg = any_in browser_keywords (map basic_lower msg) /\
  is_extract_task db1 msg = any_in extract_keywords (map basic_lower msg) /\
  pipe db1 py_repr backend valves msg model_id messages body log
  = pipe db2 py_repr backend valves msg model_id messages body log.
Proof.
  intros H1 H2 Hm.
  pose proof (lower_basic db1 H1 msg Hm) as E1.
  pose proof (lower_basic db2 H2 msg Hm) as E2.
  split; [|split].
  - unfold has_keyword. now rewrite E1.
  - unfold is_extract_task. now rewrite E1.
  - unfold pipe, is_browser_task, has_keyword, _execute_browser_task,
      is_extract_task, _extract_data, find_selector.
    rewrite E1, E2. reflexivity.
Qed.

Lemma latin_db_basic : db_basic latin_db.
Proof.
  intros c Hc. unfold latin_db, to_lower_full.
  destruct ((192 <=? c) && (c <=? 222) && negb (c =? 215))%Z eqn:E;
    [|reflexivity].
  unfold ascii_or_cjk in Hc.
  apply andb_prop in E as [E _]. apply andb_prop in E as [E1 E2].
  apply Z.leb_le in E1, E2.
  apply orb_prop in Hc as [Hc|Hc]; apply andb_prop in Hc as [Ha Hb].
  - apply Z.ltb_lt in Hb. lia.
  - apply Z.leb_le in Ha. lia.
Qed.

Lemma X11_basic_messages_witness :
  db_basic ascii_db /\ db_basic latin_db /\
  forallb ascii_or_cjk (u "Please VISIT 网页") = true /\
  pipe ascii_db no_repr silent_backend default_valves (u "Please VISIT 网页")
       [] [] PNone []
  = pipe latin_db no_repr silent_backend default_valves (u "Please VISIT 网页")
         [] [] PNone [].
Proof.
  split; [exact ascii_db_basic|]. split; [exact latin_db_basic|].
  split; [vm_compute; reflexivity|].
  apply (X11_basic_messages ascii_db latin_db no_repr silent_backend
                            default_valves (u "Please VISIT 网页") [] [] PNone []
                            ascii_db_basic latin_db_basic).
  vm_compute. reflexivity.
Defined.

(** ** From detection to dispatch *)



(** ** A pipeline as constructed *)

(** X13: a pipeline as [__init__] leaves it has detection on, so a message
    is a browser task exactly when it has a keyword or a URL; every browser
    task goes, once, to the chat-completions endpoint on port 3000 of the
    local host with a timeout of 30 seconds. *)
Theorem X13_default_pipeline (db : unicode_db) (py_repr : pyval -> pystr)
        (backend : list http_request -> http_request -> outcome)
        (msg model_id : pystr) (messages : list pyval) (body : pyval)
        (log : list http_request) :
  is_browser_task db (valves __init__) msg
  = has_keyword db msg || has_url msg /\
  (is_browser_task db (valves __init__) msg = true ->
   exists rq,
     snd (pipe db py_repr backend (valves __init__) msg model_id messages body
               log) = log ++ [rq] /\
     req_url rq = u "http://localhost:3000/api/v1/chat/completions" /\
     req_timeout rq = 30%Z).
Proof.
  split; [reflexivity|].
  intros Hb. rewrite pipe_run, Hb. cbn [snd].
  exists (task_request db (valves __init__) msg).
  split; [reflexivity|]. split; [vm_compute|]; reflexivity.
Qed.

Lemma X13_default_pipeline_witness :
  is_browser_task ascii_db (valves __init__) click_task = true /\
  exists rq,
    snd (pipe ascii_db no_repr silent_backend (valves __init__) click_task
              [] [] PNone []) = [] ++ [rq] /\
    req_url rq = u "http://localhost:3000/api/v1/chat/completions" /\
    req_timeout rq = 30%Z.
Proof.
  assert (Hb : is_browser_task ascii_db (valves __init__) click_task = true)
    by (vm_compute; reflexivity).
  split; [exact Hb|].
  exact (proj2 (X13_default_pipeline ascii_db no_repr silent_backend
                  click_task [] [] PNone []) Hb).
Defined.
